(** * Verification of the tabular analysis core of the spreadsheet viewer

    The development embeds three computations of the React sources:

    - [isNumericColumn] and [columnStats] of
      [src/components/AnalysisPanel.tsx] (column classification and
      descriptive statistics), and
    - [chartData] of [src/components/ChartViewer.tsx] (group-by aggregation
      for bar, line and pie charts).

    The program is JavaScript, so the embedding starts with the fragment of
    the language these functions rely on:

    - numbers are IEEE-754 binary64 values, modelled by Rocq's primitive
      [float] (same format, same rounding);
    - cell values are the primitives that [sheet_to_json] produces
      (numbers, strings, booleans) together with [undefined] and [null];
    - [Number(v)], [String(v)], truthiness and the binary [+] operator
      follow ECMA-262;
    - plain objects used as dictionaries keep their own properties in the
      order of [OrdinaryOwnPropertyKeys] (array indices first, ascending,
      then the other keys in creation order) and inherit the members of
      [Object.prototype]; [Map] keeps insertion order.

    Modelling boundary.  Strings are byte strings (UTF-8).  Array lengths are
    natural numbers; JavaScript bounds them by 2^32, far below the range in
    which their conversion to binary64 is exact.  Column names (the header
    cells of the spreadsheet) are read as own properties of the rows: a
    column that is named like a member of [Object.prototype] is outside the
    model.  Cell values are not restricted. *)

From Stdlib Require Import ZArith NArith List String Ascii Bool Lia Arith.
From Stdlib Require Import Floats Uint63 DecimalString.
From Stdlib Require Import Sorted Permutation.
Import ListNotations.

Set Warnings "-inexact-float".

Local Open Scope string_scope.
Local Open Scope list_scope.

(** ** JavaScript numbers and primitive values *)

Module JS.

(** [Number] is binary64. *)
Definition number := float.

(** The numeric value of an array length. *)
Definition of_nat (n : nat) : number :=
  PrimFloat.of_uint63 (Uint63.of_Z (Z.of_nat n)).

Definition isNaN (x : number) : bool := PrimFloat.is_nan x.

(** The primitive values a cell, a property or a variable can hold. *)
Inductive Value :=
| VUndefined
| VNull
| VBool (b : bool)
| VNumber (x : number)
| VString (s : string).

(** [typeof v === 'number'] *)
Definition is_number (v : Value) : bool :=
  match v with VNumber _ => true | _ => false end.

(** [ToBoolean]: the falsy values are [undefined], [null], [false], [+0],
    [-0], [NaN] and the empty string. *)
Definition ToBoolean (v : Value) : bool :=
  match v with
  | VUndefined | VNull => false
  | VBool b => b
  | VNumber x => negb (PrimFloat.is_zero x || PrimFloat.is_nan x)
  | VString s => negb (String.eqb s "")
  end.

(** [a || b] *)
Definition or_else (a b : Value) : Value := if ToBoolean a then a else b.

(** *** [StringToNumber] (ECMA-262, 7.1.4.1.1) *)

Section Decimal.

(** The binary64 value nearest to [num / den] (ties to even), for positive
    integers [num] and [den]: one correctly rounded division. *)
Definition round_ratio (neg : bool) (num den : positive) : spec_float :=
  SFdiv prec emax (S754_finite neg num 0) (S754_finite false den 0).

(** The binary64 value nearest to [m * 10^e]. *)
Definition round_decimal (neg : bool) (m : N) (e : Z) : spec_float :=
  match m with
  | N0 => S754_zero neg
  | Npos p =>
      let digits := Z.of_nat (String.length (NilZero.string_of_uint (N.to_uint m))) in
      if (310 <? e + digits)%Z then S754_infinity neg
      else if (e + digits <? -330)%Z then S754_zero neg
      else match e with
           | Z0 => round_ratio neg p 1
           | Zpos k => round_ratio neg (p * Pos.pow 10 k) 1
           | Zneg k => round_ratio neg p (Pos.pow 10 k)
           end
  end.

End Decimal.

Definition digit_of (base : N) (c : ascii) : option N :=
  let n := N_of_ascii c in
  let d :=
    if (48 <=? n)%N && (n <=? 57)%N then Some (n - 48)%N
    else if (97 <=? n)%N && (n <=? 102)%N then Some (n - 87)%N
    else if (65 <=? n)%N && (n <=? 70)%N then Some (n - 55)%N
    else None in
  match d with
  | Some v => if (v <? base)%N then Some v else None
  | None => None
  end.

(** Reads the longest prefix of digits in [base]: the value read so far,
    the number of digits read, and the rest of the string. *)
Fixpoint read_digits (base : N) (s : string) (acc : N) (len : nat)
  : N * nat * string :=
  match s with
  | EmptyString => (acc, len, s)
  | String c rest =>
      match digit_of base c with
      | Some d => read_digits base rest (acc * base + d)%N (S len)
      | None => (acc, len, s)
      end
  end.

(** [WhiteSpace] and [LineTerminator] code points, in UTF-8. *)
Definition white_space : list string :=
  let b (l : list nat) :=
    fold_right (fun n s => String (ascii_of_nat n) s) EmptyString l in
  [ b [9]; b [10]; b [11]; b [12]; b [13]; b [32];
    b [194; 160]; b [225; 154; 128];
    b [226; 128; 128]; b [226; 128; 129]; b [226; 128; 130];
    b [226; 128; 131]; b [226; 128; 132]; b [226; 128; 133];
    b [226; 128; 134]; b [226; 128; 135]; b [226; 128; 136];
    b [226; 128; 137]; b [226; 128; 138];
    b [226; 128; 168]; b [226; 128; 169]; b [226; 128; 175];
    b [226; 129; 159]; b [227; 128; 128]; b [239; 187; 191] ].

Fixpoint strip_prefix (p s : string) : option string :=
  match p, s with
  | EmptyString, _ => Some s
  | String a p', String b s' =>
      if Ascii.eqb a b then strip_prefix p' s' else None
  | String _ _, EmptyString => None
  end.

Definition strip_one_space (s : string) : option string :=
  fold_right
    (fun w found =>
       match strip_prefix w s with Some r => Some r | None => found end)
    None white_space.

Fixpoint trim_start (fuel : nat) (s : string) : string :=
  match fuel with
  | O => s
  | S fuel' =>
      match strip_one_space s with
      | Some r => trim_start fuel' r
      | None => s
      end
  end.

(** Is [s] made of white space only? *)
Definition all_space (s : string) : bool :=
  String.eqb (trim_start (String.length s) s) "".

(** [StrDecimalLiteral]: sign, digits with an optional fraction, optional
    exponent, followed by white space only. *)
Definition parse_decimal (s : string) : option spec_float :=
  let '(neg, s1) :=
    match s with
    | String "-" r => (true, r)
    | String "+" r => (false, r)
    | _ => (false, s)
    end in
  match strip_prefix "Infinity" s1 with
  | Some r => if all_space r then Some (S754_infinity neg) else None
  | None =>
      let '(ip, ilen, s2) := read_digits 10 s1 0%N 0 in
      let '(m, flen, s3) :=
        match s2 with
        | String "." r =>
            let '(m, len, r') := read_digits 10 r ip 0 in (m, len, r')
        | _ => (ip, 0, s2)
        end in
      if Nat.eqb (ilen + flen) 0 then None
      else
        let after_exp :=
          match s3 with
          | String c r =>
              if Ascii.eqb c "e" || Ascii.eqb c "E" then
                let '(eneg, r1) :=
                  match r with
                  | String "-" r' => (true, r')
                  | String "+" r' => (false, r')
                  | _ => (false, r)
                  end in
                let '(ev, elen, r2) := read_digits 10 r1 0%N 0 in
                if Nat.eqb elen 0 then None
                else Some ((if eneg then - Z.of_N ev else Z.of_N ev)%Z, r2)
              else Some (0%Z, s3)
          | EmptyString => Some (0%Z, s3)
          end in
        match after_exp with
        | Some (e, rest) =>
            if all_space rest
            then Some (round_decimal neg m (e - Z.of_nat flen))
            else None
        | None => None
        end
  end.

(** [NonDecimalIntegerLiteral]: [0x], [0o] and [0b] prefixes, unsigned. *)
Definition parse_radix (s : string) : option spec_float :=
  match s with
  | String "0" (String c r) =>
      let base :=
        if Ascii.eqb c "x" || Ascii.eqb c "X" then Some 16%N
        else if Ascii.eqb c "o" || Ascii.eqb c "O" then Some 8%N
        else if Ascii.eqb c "b" || Ascii.eqb c "B" then Some 2%N
        else None in
      match base with
      | Some b =>
          let '(v, len, rest) := read_digits b r 0%N 0 in
          if Nat.eqb len 0 then None
          else if all_space rest then
            Some (match v with
                  | N0 => S754_zero false
                  | Npos p => round_ratio false p 1
                  end)
          else None
      | None => None
      end
  | _ => None
  end.

Definition StringToNumber (s : string) : number :=
  let t := trim_start (String.length s) s in
  if String.eqb t "" then PrimFloat.zero
  else match parse_radix t with
       | Some x => SF2Prim x
       | None =>
           match parse_decimal t with
           | Some x => SF2Prim x
           | None => PrimFloat.nan
           end
       end.

(** [Number(v)], that is [ToNumber] on primitives. *)
Definition ToNumber (v : Value) : number :=
  match v with
  | VUndefined => PrimFloat.nan
  | VNull => PrimFloat.zero
  | VBool b => if b then PrimFloat.one else PrimFloat.zero
  | VNumber x => x
  | VString s => StringToNumber s
  end.

(** *** [Number::toString] (ECMA-262, 6.1.6.1.20), radix 10 *)

Definition string_of_N (n : N) : string :=
  NilZero.string_of_uint (N.to_uint n).

Definition string_of_pos_Z (z : Z) : string := string_of_N (Z.to_N z).

Fixpoint zeros (n : nat) : string :=
  match n with O => "" | S n' => String "0" (zeros n') end.

Definition pow10 (k : Z) : positive := Z.to_pos (10 ^ k).

Definition SF_same (x y : spec_float) : bool :=
  match x, y with
  | S754_finite s1 m1 e1, S754_finite s2 m2 e2 =>
      Bool.eqb s1 s2 && Pos.eqb m1 m2 && Z.eqb e1 e2
  | _, _ => false
  end.

(** For a positive finite [x = m * 2^e], written [num / den]: does the
    [k]-digit decimal nearest to [x] at scale [10^(n-k)] read back as [x]?
    Returns its digits [s] and the position [n] of the decimal point. *)
Definition shortest_at (x : spec_float) (num den : positive) (n : Z) (k : Z)
  : option (N * Z) :=
  let '(num', den') :=
    if (0 <=? k - n)%Z then ((num * pow10 (k - n))%positive, den)
    else (num, (den * pow10 (n - k))%positive) in
  let lo := (Zpos num' / Zpos den')%Z in
  let rem := (Zpos num' mod Zpos den')%Z in
  let hi := (lo + 1)%Z in
  let ok (s : Z) := SF_same (round_decimal false (Z.to_N s) (n - k)) x in
  let lo_first :=
    match (2 * rem ?= Zpos den')%Z with
    | Lt => true
    | Gt => false
    | Eq => Z.even lo
    end in
  let pick :=
    if lo_first then (if ok lo then Some lo else if ok hi then Some hi else None)
    else (if ok hi then Some hi else if ok lo then Some lo else None) in
  match pick with
  | Some s =>
      if (s =? 10 ^ k)%Z then Some (Z.to_N (10 ^ (k - 1)), (n + 1)%Z)
      else Some (Z.to_N s, n)
  | None => None
  end.

Fixpoint shortest_from (fuel : nat) (x : spec_float) (num den : positive)
  (n : Z) (k : Z) : N * Z :=
  match fuel with
  | O => (0%N, n)
  | S fuel' =>
      match shortest_at x num den n k with
      | Some r => r
      | None => shortest_from fuel' x num den n (k + 1)
      end
  end.

(** The least [n] from [start] upwards with [num / den < 10^n]. *)
Fixpoint magnitude10 (fuel : nat) (num den : positive) (n : Z) : Z :=
  match fuel with
  | O => n
  | S fuel' =>
      let below :=
        if (0 <=? n)%Z then (num <? den * pow10 n)%positive
        else (num * pow10 (- n) <? den)%positive in
      if below then n else magnitude10 fuel' num den (n + 1)
  end.

Definition digits_of_finite (m : positive) (e : Z) : N * Z :=
  let '(num, den) :=
    match e with
    | Z0 => (m, 1%positive)
    | Zpos p => ((m * Pos.pow 2 p)%positive, 1%positive)
    | Zneg p => (m, Pos.pow 2 p)
    end in
  let b := (Zpos (digits2_pos m) + e)%Z in
  let start := ((b - 1) * 30103 / 100000 - 1)%Z in
  let n := magnitude10 8 num den start in
  shortest_from 17 (S754_finite false m e) num den n 1.

Definition format_decimal (s : N) (n : Z) : string :=
  let ds := string_of_N s in
  let k := Z.of_nat (String.length ds) in
  if ((k <=? n) && (n <=? 21))%Z then (ds ++ zeros (Z.to_nat (n - k)))%string
  else if ((0 <? n) && (n <=? 21))%Z then
    (substring 0 (Z.to_nat n) ds ++ "." ++
     substring (Z.to_nat n) (Z.to_nat (k - n)) ds)%string
  else if ((-6 <? n) && (n <=? 0))%Z then
    ("0." ++ zeros (Z.to_nat (- n)) ++ ds)%string
  else
    let e := (n - 1)%Z in
    let sign := if (e <? 0)%Z then "-" else "+" in
    let mant :=
      if (k =? 1)%Z then ds
      else (substring 0 1 ds ++ "." ++ substring 1 (Z.to_nat (k - 1)) ds)%string in
    (mant ++ "e" ++ sign ++ string_of_pos_Z (Z.abs e))%string.

Definition NumberToString (x : number) : string :=
  match Prim2SF x with
  | S754_nan => "NaN"
  | S754_zero _ => "0"
  | S754_infinity s => if s then "-Infinity" else "Infinity"
  | S754_finite s m e =>
      let '(d, n) := digits_of_finite m e in
      ((if s then "-" else "") ++ format_decimal d n)%string
  end.

(** [String(v)], that is [ToString] on primitives. *)
Definition ToString (v : Value) : string :=
  match v with
  | VUndefined => "undefined"
  | VNull => "null"
  | VBool b => if b then "true" else "false"
  | VNumber x => NumberToString x
  | VString s => s
  end.

(** The binary [+] operator on primitives: concatenation as soon as one
    operand is a string, numeric addition otherwise. *)
Definition add (a b : Value) : Value :=
  match a, b with
  | VString _, _ | _, VString _ => VString (ToString a ++ ToString b)%string
  | _, _ => VNumber (ToNumber a + ToNumber b)%float
  end.

(** A value other than NaN, and the order [<=] of numbers as a
    proposition. *)
Definition is_num (x : number) : Prop := isNaN x = false.
Definition fle (x y : number) : Prop := (x <=? y)%float = true.

End JS.

(** ** Arrays *)

Module Arr.

(** [a[i]]: [undefined] outside [0 .. length-1]. *)
Definition get (a : list JS.number) (i : Z) : JS.Value :=
  if (i <? 0)%Z then JS.VUndefined
  else match nth_error a (Z.to_nat i) with
       | Some x => JS.VNumber x
       | None => JS.VUndefined
       end.

Section Sort.
Context {A : Type}.

(** [after y x] holds when the comparator, called on [(y, x)], returns a
    positive number: [y] has to come after [x]. *)
Variable after : A -> A -> bool.

Fixpoint insert (x : A) (l : list A) : list A :=
  match l with
  | [] => [x]
  | y :: l' => if after y x then x :: y :: l' else y :: insert x l'
  end.

(** [Array.prototype.sort] is stable; with a consistent comparator every
    stable sort returns the list that stable insertion returns. *)
Definition sort (l : list A) : list A :=
  fold_left (fun acc x => insert x acc) l [].
End Sort.

(** [a.slice(first, last)] for integral positions: a negative position
    counts from the end, and both are clamped to the array. *)
Definition slice {A : Type} (a : list A) (first last : Z) : list A :=
  let len := Z.of_nat (List.length a) in
  let k := if (first <? 0)%Z then Z.max (len + first) 0 else Z.min first len in
  let final := if (last <? 0)%Z then Z.max (len + last) 0 else Z.min last len in
  firstn (Z.to_nat (final - k)) (skipn (Z.to_nat k) a).

(** [a.join(sep)] on an array of strings. *)
Fixpoint join (sep : string) (a : list string) : string :=
  match a with
  | [] => ""%string
  | [x] => x
  | x :: rest => (x ++ sep ++ join sep rest)%string
  end.

End Arr.

(** ** Plain objects and [Map] *)

Module Obj.

(** Own properties, in creation order. *)
Definition t (A : Type) := list (string * A).

Section Props.
Context {A : Type}.

Fixpoint get (o : t A) (k : string) : option A :=
  match o with
  | [] => None
  | (k', v) :: o' => if String.eqb k' k then Some v else get o' k
  end.

(** [o[k] = v]: an existing property keeps its place. *)
Fixpoint set (o : t A) (k : string) (v : A) : t A :=
  match o with
  | [] => [(k, v)]
  | (k', v') :: o' =>
      if String.eqb k' k then (k', v) :: o' else (k', v') :: set o' k v
  end.

(** An array index is a canonical numeric string below [2^32 - 1]. *)
Definition array_index (k : string) : option N :=
  match k with
  | EmptyString => None
  | String c rest =>
      let '(v, len, tail) := JS.read_digits 10 k 0%N 0 in
      if negb (String.eqb tail "") then None
      else if Ascii.eqb c "0" && negb (String.eqb rest "") then None
      else if (v <? 4294967295)%N then Some v else None
  end.

Definition is_index (p : string * A) : bool :=
  match array_index (fst p) with Some _ => true | None => false end.

Definition index_of (p : string * A) : N :=
  match array_index (fst p) with Some i => i | None => 0%N end.

(** [OrdinaryOwnPropertyKeys]: array indices in ascending order, then the
    other string keys in creation order. *)
Definition entries (o : t A) : list (string * A) :=
  Arr.sort (fun y x => (index_of x <? index_of y)%N) (filter is_index o)
  ++ filter (fun p => negb (is_index p)) o.

(** [Object.values(o)] *)
Definition values (o : t A) : list A := map snd (entries o).

(** [Object.keys(o)] *)
Definition keys (o : t A) : list string := map fst (entries o).
End Props.

(** The property names every plain object inherits from
    [Object.prototype]; each resolves to a function or an object, which is
    truthy. *)
Definition ObjectPrototypeKeys : list string :=
  [ "constructor"; "__defineGetter__"; "__defineSetter__"; "hasOwnProperty";
    "__lookupGetter__"; "__lookupSetter__"; "isPrototypeOf";
    "propertyIsEnumerable"; "toString"; "valueOf"; "__proto__";
    "toLocaleString" ].

Definition inherited (k : string) : bool :=
  existsb (String.eqb k) ObjectPrototypeKeys.

End Obj.

(** A row of the sheet: column name to cell. *)
Definition Row := Obj.t JS.Value.

(** [row[column]] *)
Definition prop (row : Row) (column : string) : JS.Value :=
  match Obj.get row column with
  | Some v => v
  | None => JS.VUndefined
  end.

(** ** [Math] *)

Module Math.
Import JS.
Local Open Scope float_scope.

Definition is_neg_zero (x : number) : bool :=
  PrimFloat.is_zero x && PrimFloat.get_sign x.

Definition is_pos_zero (x : number) : bool :=
  PrimFloat.is_zero x && negb (PrimFloat.get_sign x).

(** [Math.min(...l)]: [NaN] if an argument is, else the least argument,
    with [-0] below [+0]; [Infinity] without arguments. *)
Definition min (l : list number) : number :=
  if existsb isNaN l then PrimFloat.nan
  else fold_left
         (fun lowest x =>
            if is_neg_zero x && is_pos_zero lowest then x
            else if x <? lowest then x else lowest)
         l PrimFloat.infinity.

Definition max (l : list number) : number :=
  if existsb isNaN l then PrimFloat.nan
  else fold_left
         (fun highest x =>
            if is_pos_zero x && is_neg_zero highest then x
            else if highest <? x then x else highest)
         l PrimFloat.neg_infinity.

(** [Math.pow(x, 2)]: the square, rounded once. *)
Definition pow2 (x : number) : number := x * x.

Definition sqrt (x : number) : number := PrimFloat.sqrt x.

End Math.

(** ** [src/components/AnalysisPanel.tsx] *)

Module AnalysisPanel.
Import JS.

(** [value === undefined || value === null || value === ''] *)
Definition is_empty (v : Value) : bool :=
  match v with
  | VUndefined | VNull => true
  | VString s => String.eqb s ""
  | _ => false
  end.

(** The test [isNumericColumn] applies to one sampled cell. *)
Definition numeric_cell (v : Value) : bool :=
  is_empty v || (is_number v || negb (isNaN (ToNumber v))).

Definition isNumericColumn (data : list Row) (column : string) : bool :=
  if Nat.eqb (List.length data) 0 then false
  else forallb (fun row => numeric_cell (prop row column)) (firstn 5 data).

Module NumericStats.
Record t := mk
  { count : nat;
    emptyCount : nat;
    min : number;
    max : number;
    range : number;
    sum : number;
    mean : number;
    median : Value;
    stdDev : number;
    q1 : Value;
    q3 : Value }.
End NumericStats.

Module CategoricalStats.
Record t := mk
  { count : nat;
    emptyCount : nat;
    uniqueCount : nat;
    mode : string;
    modeFrequency : nat;
    frequencies : list (string * nat) }.
End CategoricalStats.

Inductive Stats :=
| Numeric (s : NumericStats.t)
| Categorical (s : CategoricalStats.t).

(** [data.map(row => Number(row[column])).filter(val => !isNaN(val))] *)
Definition validValues (data : list Row) (column : string) : list number :=
  filter (fun val => negb (isNaN val))
         (map (fun row => ToNumber (prop row column)) data).

(** [reduce((acc, val) => acc + val, 0)] *)
Definition total (l : list number) : number :=
  fold_left (fun acc val => acc + val)%float l 0%float.

(** [[...validValues].sort((a, b) => a - b)] *)
Definition sortedValues (l : list number) : list number :=
  Arr.sort (fun a b => 0 <? a - b)%float l.

(** The positions the statistics read.  For an array List.length [n] the
    products [n * 0.25] and [n * 0.75] are exact in binary64, so their
    floors are the integer quotients. *)
Definition mid_index (n : Z) : Z := (n / 2)%Z.
Definition q1_index (n : Z) : Z := (n / 4)%Z.
Definition q3_index (n : Z) : Z := (3 * n / 4)%Z.

Definition median_of (sorted : list number) : Value :=
  let n := Z.of_nat (List.length sorted) in
  if (n mod 2 =? 0)%Z
  then VNumber (ToNumber (add (Arr.get sorted (n / 2 - 1)) (Arr.get sorted (n / 2))) / 2)%float
  else Arr.get sorted (mid_index n).

Definition variance_of (l : list number) (mean : number) : number :=
  (total (map (fun val => Math.pow2 (val - mean)) l) / of_nat (List.length l))%float.

Definition numericStats (data : list Row) (column : string)
  : option NumericStats.t :=
  let valid := validValues data column in
  if Nat.eqb (List.length valid) 0 then None
  else
    let sum := total valid in
    let mean := (sum / of_nat (List.length valid))%float in
    let sorted := sortedValues valid in
    let n := Z.of_nat (List.length sorted) in
    let min := Math.min valid in
    let max := Math.max valid in
    Some (NumericStats.mk
            (List.length valid)
            (List.length data - List.length valid)
            min max (max - min)%float sum mean
            (median_of sorted)
            (Math.sqrt (variance_of valid mean))
            (Arr.get sorted (q1_index n))
            (Arr.get sorted (q3_index n))).

(** The body of [data.forEach] on the categorical path: the state is the
    [Map] of frequencies and [emptyCount]. *)
Definition tally (column : string) (st : Obj.t nat * nat) (row : Row)
  : Obj.t nat * nat :=
  let '(valueMap, emptyCount) := st in
  let value := prop row column in
  if is_empty value then (valueMap, S emptyCount)
  else
    let strValue := ToString value in
    let seen := match Obj.get valueMap strValue with Some c => c | None => 0%nat end in
    (Obj.set valueMap strValue (seen + 1), emptyCount).

(** [valueMap.forEach]: the first key with the highest frequency. *)
Definition find_mode (valueMap : Obj.t nat) : string * nat :=
  fold_left
    (fun (acc : string * nat) (p : string * nat) =>
       let '(mode, modeFrequency) := acc in
       let '(value, freq) := p in
       if Nat.ltb modeFrequency freq then (value, freq) else (mode, modeFrequency))
    valueMap (""%string, 0%nat).

Definition categoricalStats (data : list Row) (column : string)
  : CategoricalStats.t :=
  let '(valueMap, emptyCount) := fold_left (tally column) data ([], 0) in
  let frequencies :=
    firstn 10 (Arr.sort (fun a b => Nat.ltb (snd a) (snd b)) valueMap) in
  let '(mode, modeFrequency) := find_mode valueMap in
  CategoricalStats.mk (List.length data - emptyCount) emptyCount
                      (List.length valueMap) mode modeFrequency frequencies.

(** [columnStats]: [None] is JavaScript's [null]. *)
Definition columnStats (data : list Row) (selectedColumn : string)
  : option Stats :=
  if Nat.eqb (List.length data) 0 || String.eqb selectedColumn "" then None
  else if isNumericColumn data selectedColumn then
    match numericStats data selectedColumn with
    | Some s => Some (Numeric s)
    | None => None
    end
  else Some (Categorical (categoricalStats data selectedColumn)).

(** [columns]: the keys of the first row. *)
Definition columns (data : list Row) : list string :=
  match data with
  | [] => []
  | row :: _ => Obj.keys row
  end.

Definition numericColumns (data : list Row) : list string :=
  filter (isNumericColumn data) (columns data).

Module DataSummary.
Record t := mk
  { rowCount : nat;
    columnCount : nat;
    numericColumnCount : nat;
    categoricalColumnCount : nat }.
End DataSummary.

(** [dataSummary]: [None] is JavaScript's [null]. *)
Definition dataSummary (data : list Row) : option DataSummary.t :=
  if Nat.eqb (List.length data) 0 then None
  else Some (DataSummary.mk
               (List.length data)
               (List.length (columns data))
               (List.length (numericColumns data))
               (List.length (columns data) - List.length (numericColumns data))).

End AnalysisPanel.

(** ** [src/components/ChartViewer.tsx] *)

Module ChartViewer.
Import JS.

(** [String(item[xAxisField] || 'undefined')] *)
Definition xKey (xAxisField : string) (item : Row) : string :=
  ToString (or_else (prop item xAxisField) (VString "undefined")).

(** [Number(item[field]) || 0] *)
Definition yTerm (item : Row) (field : string) : number :=
  ToNumber (or_else (VNumber (ToNumber (prop item field))) (VNumber 0%float)).

(** The object a new group starts from: the x value, then [0] for each
    y field. *)
Definition new_group (xAxisField xValue : string) (yAxisFields : list string)
  : Row :=
  fold_left (fun g field => Obj.set g field (VNumber 0%float))
            yAxisFields [(xAxisField, VString xValue)].

(** [groupedData[xValue][field] += value] for each y field. *)
Definition accumulate (yAxisFields : list string) (item : Row) (g : Row)
  : Row :=
  fold_left
    (fun g field => Obj.set g field (add (prop g field) (VNumber (yTerm item field))))
    yAxisFields g.

(** The body of [data.forEach] for bar and line charts.  When [xValue]
    names a member of [Object.prototype] the lookup finds that built-in, so
    no group is created and the sums are written to the built-in instead of
    [groupedData]. *)
Definition bar_step (xAxisField : string) (yAxisFields : list string)
  (groupedData : Obj.t Row) (item : Row) : Obj.t Row :=
  let xValue := xKey xAxisField item in
  match Obj.get groupedData xValue with
  | Some g => Obj.set groupedData xValue (accumulate yAxisFields item g)
  | None =>
      if Obj.inherited xValue then groupedData
      else Obj.set groupedData xValue
             (accumulate yAxisFields item
                (new_group xAxisField xValue yAxisFields))
  end.

(** The body of [data.forEach] for the pie chart. *)
Definition pie_step (xAxisField yField : string)
  (groupedData : Obj.t Row) (item : Row) : Obj.t Row :=
  let xValue := xKey xAxisField item in
  let bump (g : Row) :=
    Obj.set g "value" (add (prop g "value") (VNumber (yTerm item yField))) in
  match Obj.get groupedData xValue with
  | Some g => Obj.set groupedData xValue (bump g)
  | None =>
      if Obj.inherited xValue then groupedData
      else Obj.set groupedData xValue
             (bump [("name"%string, VString xValue); ("value"%string, VNumber 0%float)])
  end.

Definition chartData (data : list Row) (chartType xAxisField : string)
  (yAxisFields : list string) : list Row :=
  if Nat.eqb (List.length data) 0 || String.eqb xAxisField ""
     || Nat.eqb (List.length yAxisFields) 0
  then []
  else if String.eqb chartType "bar" || String.eqb chartType "line" then
    Obj.values (fold_left (bar_step xAxisField yAxisFields) data [])
  else if String.eqb chartType "pie" then
    match yAxisFields with
    | yField :: _ =>
        Obj.values (fold_left (pie_step xAxisField yField) data [])
    | [] => []
    end
  else [].

(** The component's own copies of [columns] and of the classifier. *)
Module ColumnTypes.

Definition isNumericColumn (data : list Row) (column : string) : bool :=
  if Nat.eqb (List.length data) 0 then false
  else forallb
         (fun row =>
            let value := prop row column in
            AnalysisPanel.is_empty value
            || (is_number value || negb (isNaN (ToNumber value))))
         (firstn 5 data).

Definition columns (data : list Row) : list string :=
  match data with
  | [] => []
  | row :: _ => Obj.keys row
  end.

Definition numericColumns (data : list Row) : list string :=
  filter (isNumericColumn data) (columns data).

Definition categoricalColumns (data : list Row) : list string :=
  filter (fun col => negb (isNumericColumn data col)) (columns data).

End ColumnTypes.

(** The selection made when the columns change: the first categorical
    column as x field and the first numeric column as the only y field, when
    both kinds exist. *)
Definition defaultSelection (data : list Row) : option (string * list string) :=
  match ColumnTypes.categoricalColumns data, ColumnTypes.numericColumns data with
  | c :: _, n :: _ => Some (c, [n])
  | _, _ => None
  end.

(** [yAxisFields.includes(field)] *)
Definition includes (l : list string) (x : string) : bool :=
  existsb (String.eqb x) l.

(** [toggleYAxisField]: the new value of [yAxisFields]. *)
Definition toggleYAxisField (yAxisFields : list string) (field : string)
  : list string :=
  if includes yAxisFields field then
    if Nat.ltb 1 (List.length yAxisFields)
    then filter (fun f => negb (String.eqb f field)) yAxisFields
    else yAxisFields
  else yAxisFields ++ [field].

End ChartViewer.

(** ** [src/components/DataViewer.tsx] *)

Module DataViewer.
Import JS.

Definition comma : ascii := ascii_of_nat 44.
Definition newline : ascii := ascii_of_nat 10.
Definition quote : ascii := ascii_of_nat 34.

(** [s.includes(c)] for a one-character string [c]. *)
Fixpoint includes (s : string) (c : ascii) : bool :=
  match s with
  | EmptyString => false
  | String a rest => Ascii.eqb a c || includes rest c
  end.

(** [s.replace] with the global pattern that matches a quote: every quote
    is written twice. *)
Fixpoint double_quotes (s : string) : string :=
  match s with
  | EmptyString => EmptyString
  | String a rest =>
      if Ascii.eqb a quote then String quote (String quote (double_quotes rest))
      else String a (double_quotes rest)
  end.

(** One cell of [exportCSV]: the string form of the value ([undefined]
    becomes the empty string), wrapped in quotes when it contains a comma, a
    newline or a quote. *)
Definition csvField (v : Value) : string :=
  let value := match v with VUndefined => VString "" | _ => v end in
  let valueStr := ToString value in
  if includes valueStr comma || includes valueStr newline
     || includes valueStr quote
  then String quote (double_quotes valueStr ++ String quote EmptyString)%string
  else valueStr.

Definition csvRow (selectedColumns : list string) (row : Row) : string :=
  Arr.join (String comma EmptyString)
           (map (fun column => csvField (prop row column)) selectedColumns).

Definition csvContent (selectedColumns : list string)
  (filteredData : list Row) : string :=
  Arr.join (String newline EmptyString)
           (Arr.join (String comma EmptyString) selectedColumns
            :: map (csvRow selectedColumns) filteredData).

(** [handleColumnSelectionChange]: the new value of [selectedColumns]. *)
Definition handleColumnSelectionChange (selectedColumns : list string)
  (column : string) : list string :=
  if existsb (String.eqb column) selectedColumns
  then filter (fun col => negb (String.eqb col column)) selectedColumns
  else selectedColumns ++ [column].

(** [Math.ceil(filteredData.length / rowsPerPage)], with [rowsPerPage] one
    of the offered sizes 10, 25, 50 and 100: the quotient of two such
    integers is rounded far less than its distance to the next integer, so
    the ceiling is the integer one. *)
Definition totalPages (length rowsPerPage : nat) : Z :=
  Z.of_nat ((length + rowsPerPage - 1) / rowsPerPage).

Definition paginatedData {A : Type} (filteredData : list A)
  (currentPage : Z) (rowsPerPage : nat) : list A :=
  Arr.slice filteredData ((currentPage - 1) * Z.of_nat rowsPerPage)
            (currentPage * Z.of_nat rowsPerPage).

(** The four page buttons. *)
Definition firstPage : Z := 1.
Definition prevPage (prev : Z) : Z := Z.max (prev - 1) 1.
Definition nextPage (prev totalPages : Z) : Z := Z.min (prev + 1) totalPages.
Definition lastPage (totalPages : Z) : Z := totalPages.

End DataViewer.

(** ** The vocabulary of the specification

    The specification describes the classifier by the sample alone, and the
    chart by its groups: the distinct x keys in first-seen order, the rows
    of a key, the sum of a field over them.  These definitions follow its
    words; the properties below relate them to the code. *)

Module Spec.
Import JS.

Definition parses_as_number (v : Value) : bool := negb (isNaN (ToNumber v)).

(** Numeric exactly when every sampled value is empty or parses. *)
Definition classifier (data : list Row) (column : string) : bool :=
  forallb (fun row => AnalysisPanel.is_empty (prop row column)
                      || parses_as_number (prop row column))
          (firstn 5 data).

Definition mem (k : string) (ks : list string) : bool :=
  existsb (String.eqb k) ks.

(** The distinct elements of [l], each at its first occurrence. *)
Definition first_seen (l : list string) : list string :=
  fold_left (fun acc k => if mem k acc then acc else (acc ++ [k])%list) l [].

(** The order in which a plain object lists the keys [ks] it was given in
    that order: array indices ascending, then the rest as given. *)
Definition own_key_order (ks : list string) : list string :=
  Obj.keys (map (fun k => (k, tt)) ks).

(** The rows that fall under the key [k]. *)
Definition rows_of (key : Row -> string) (k : string) (data : list Row)
  : list Row :=
  filter (fun item => String.eqb (key item) k) data.

(** The keys that get a group: the distinct keys, first seen first, without
    the names of the members of [Object.prototype]. *)
Definition group_keys (key : Row -> string) (data : list Row) : list string :=
  first_seen (filter (fun k => negb (Obj.inherited k)) (map key data)).

(** The sum the chart shows for [field] in the group [k]: one term per row
    of the group, in the order of the rows. *)
Definition group_sum (xAxisField : string) (data : list Row)
  (k field : string) : number :=
  fold_left (fun acc item => (acc + ChartViewer.yTerm item field)%float)
            (rows_of (ChartViewer.xKey xAxisField) k data) 0%float.

(** The output row of the group [k] in a bar or line chart: the x value,
    then each y field with its sum. *)
Definition group_row (xAxisField : string) (yAxisFields : list string)
  (data : list Row) (k : string) : Row :=
  fold_left
    (fun g field => Obj.set g field (VNumber (group_sum xAxisField data k field)))
    yAxisFields [(xAxisField, VString k)].

(** The output row of the group [k] in a pie chart. *)
Definition slice (xAxisField yField : string) (data : list Row) (k : string)
  : Row :=
  [("name", VString k);
   ("value", VNumber (group_sum xAxisField data k yField))].

(** The dataset of the specification's scenarios A, B and C. *)
Definition scenario : list Row :=
  [ [("a", VNumber 1%float); ("b", VString "x")];
    [("a", VNumber 2%float); ("b", VString "y")];
    [("a", VNumber 3%float); ("b", VString "x")] ].

End Spec.

Import Spec.

(** ** Notions the further properties are stated with

    The strings a categorical column is tallied under, the number of times a
    string occurs, the text of an exported cell, and a reader of
    comma-separated text. *)

Module Reference.
Import JS.

(** The string forms of the non-empty cells of a column, in row order. *)
Definition value_strings (data : list Row) (column : string) : list string :=
  map ToString
      (filter (fun v => negb (AnalysisPanel.is_empty v))
              (map (fun row => prop row column) data)).

(** How often [k] occurs in [l]. *)
Definition occurrences (k : string) (l : list string) : nat :=
  List.length (filter (String.eqb k) l).

(** The text of a cell before quoting. *)
Definition cellText (v : Value) : string :=
  ToString (match v with VUndefined => VString "" | _ => v end).

(** A reader of the text [exportCSV] writes. *)
Module Csv.
Import DataViewer.

(** The text after an opening quote, up to the closing quote at its end: a
    pair of quotes stands for one quote. *)
Fixpoint unquote (s : string) : option string :=
  match s with
  | EmptyString => None
  | String a rest =>
      if Ascii.eqb a quote then
        match rest with
        | EmptyString => Some EmptyString
        | String b rest' =>
            if Ascii.eqb b quote
            then option_map (String quote) (unquote rest')
            else None
        end
      else option_map (String a) (unquote rest)
  end.

(** One field, as a CSV reader takes it. *)
Definition decodeField (s : string) : option string :=
  match s with
  | EmptyString => Some EmptyString
  | String a rest => if Ascii.eqb a quote then unquote rest else Some s
  end.

(** Splits a text at the separators that stand outside quotes. *)
Fixpoint split (sep : ascii) (s : string) (quoted : bool) : list string :=
  match s with
  | EmptyString => [EmptyString]
  | String a rest =>
      if Ascii.eqb a quote then
        match split sep rest (negb quoted) with
        | f :: fs => String a f :: fs
        | [] => []
        end
      else if Ascii.eqb a sep && negb quoted then
        EmptyString :: split sep rest quoted
      else
        match split sep rest quoted with
        | f :: fs => String a f :: fs
        | [] => []
        end
  end.

(** The records of a text and the fields of a record. *)
Definition records (text : string) : list string := split newline text false.
Definition fields (record : string) : list string := split comma record false.

(** What a scan does with a text it adds to the current field. *)
Definition prepend (s : string) (l : list string) : list string :=
  match l with
  | f :: fs => (s ++ f)%string :: fs
  | [] => []
  end.

End Csv.

End Reference.

Import Reference.

(** * Properties *)

(** ** Lists and guards *)

Lemma length_zero_nil {A} (l : list A) :
  Nat.eqb (List.length l) 0 = true <-> l = [].
Proof.
  destruct l; simpl; split; intros H; try reflexivity; discriminate.
Qed.

Lemma length_zero_cons {A} (l : list A) :
  Nat.eqb (List.length l) 0 = false <-> l <> [].
Proof.
  destruct l; simpl; split; intros H;
    try reflexivity; try discriminate; congruence.
Qed.

Lemma string_eqb_empty (s : string) :
  String.eqb s "" = true <-> s = "".
Proof. apply String.eqb_eq. Qed.

(** ** Column classification *)

Section Classification.
Import JS AnalysisPanel.

(** C2 (as amended).  On a dataset with at least one row, [isNumericColumn]
    answers numeric exactly when every cell of the column in the first five
    rows is empty ([undefined], [null] or the empty string), is of type
    number, or converts to a number other than NaN.  On the empty dataset it
    answers categorical. *)
Theorem isNumericColumn_iff_sample (data : list Row) (column : string) :
  isNumericColumn data column = true <->
  data <> [] /\
  forall row, In row (firstn 5 data) ->
    is_empty (prop row column) = true \/
    is_number (prop row column) = true \/
    isNaN (ToNumber (prop row column)) = false.
Proof.
  unfold isNumericColumn.
  destruct (Nat.eqb (List.length data) 0) eqn:E.
  - apply length_zero_nil in E. subst data. split.
    + discriminate.
    + intros [H _]. exfalso. apply H. reflexivity.
  - apply length_zero_cons in E. rewrite forallb_forall. split.
    + intros H. split; [assumption|]. intros row Hin.
      specialize (H row Hin). unfold numeric_cell in H.
      apply orb_true_iff in H. destruct H as [H|H]; [now left|].
      apply orb_true_iff in H. destruct H as [H|H]; [now (right; left)|].
      right; right. now apply negb_true_iff in H.
    + intros [_ H] row Hin. unfold numeric_cell.
      destruct (H row Hin) as [H1|[H1|H1]]; rewrite H1; simpl;
        rewrite ?orb_true_r; reflexivity.
Qed.

(** The sample-only reading fails on the empty dataset, which the guard of
    [isNumericColumn] classifies as categorical, and on a cell that holds the
    number NaN, which [typeof] accepts although it does not parse. *)
Lemma isNumericColumn_differs_from_sample_reading :
  (isNumericColumn [] "a" = false /\ Spec.classifier [] "a" = true) /\
  (isNumericColumn [[("a", VNumber PrimFloat.nan)]] "a" = true /\
   Spec.classifier [[("a", VNumber PrimFloat.nan)]] "a" = false).
Proof. repeat split. Qed.

End Classification.

(** ** The order of binary64 *)

Module FloatOrder.

(** A key whose lexicographic order is the order of the non-NaN values. *)
Definition key (x : spec_float) : Z * Z * Z :=
  match x with
  | S754_nan => (0, 0, 0)%Z
  | S754_zero _ => (0, 0, 0)%Z
  | S754_infinity true => (-2, 0, 0)%Z
  | S754_infinity false => (2, 0, 0)%Z
  | S754_finite true m e => (-1, - e, - Zpos m)%Z
  | S754_finite false m e => (1, e, Zpos m)%Z
  end.

Definition lex (a b : Z * Z * Z) : comparison :=
  let '(a1, a2, a3) := a in
  let '(b1, b2, b3) := b in
  match (a1 ?= b1)%Z with
  | Eq => match (a2 ?= b2)%Z with
          | Eq => (a3 ?= b3)%Z
          | c => c
          end
  | c => c
  end.

Definition lex_le (a b : Z * Z * Z) : Prop :=
  let '(a1, a2, a3) := a in
  let '(b1, b2, b3) := b in
  (a1 < b1 \/ (a1 = b1 /\ (a2 < b2 \/ (a2 = b2 /\ a3 <= b3))))%Z.

Definition lex_lt (a b : Z * Z * Z) : Prop :=
  let '(a1, a2, a3) := a in
  let '(b1, b2, b3) := b in
  (a1 < b1 \/ (a1 = b1 /\ (a2 < b2 \/ (a2 = b2 /\ a3 < b3))))%Z.

Lemma lex_spec (a b : Z * Z * Z) :
  match lex a b with
  | Lt => lex_lt a b
  | Eq => a = b
  | Gt => lex_lt b a
  end.
Proof.
  destruct a as [[a1 a2] a3], b as [[b1 b2] b3]. unfold lex, lex_lt.
  destruct (Z.compare_spec a1 b1); [|lia|lia].
  destruct (Z.compare_spec a2 b2); [|lia|lia].
  destruct (Z.compare_spec a3 b3); [congruence|lia|lia].
Qed.

Lemma SFcompare_key (x y : spec_float) :
  x <> S754_nan -> y <> S754_nan ->
  SFcompare x y = Some (lex (key x) (key y)).
Proof.
  intros Hx Hy.
  destruct x as [sx|sx| |sx mx ex], y as [sy|sy| |sy my ey];
    try congruence;
    try (destruct sx); try (destruct sy); try reflexivity.
  - simpl. rewrite !Z.compare_opp.
    rewrite (Z.compare_antisym ey ex).
    destruct (ey ?= ex)%Z; reflexivity.
Qed.


Import JS.

Lemma isNaN_false (x : number) : isNaN x = false <-> Prim2SF x <> S754_nan.
Proof.
  unfold isNaN, PrimFloat.is_nan. rewrite negb_false_iff, FloatAxioms.eqb_spec.
  unfold SFeqb. split.
  - intros H E. rewrite E in H. discriminate.
  - intros H. rewrite SFcompare_key by assumption.
    pose proof (lex_spec (key (Prim2SF x)) (key (Prim2SF x))) as L.
    destruct (lex (key (Prim2SF x)) (key (Prim2SF x))); try reflexivity;
      destruct (key (Prim2SF x)) as [[a b] c]; simpl in L; lia.
Qed.

Lemma isNaN_true (x : number) : isNaN x = true <-> Prim2SF x = S754_nan.
Proof.
  split; intros H.
  - destruct (Prim2SF x) eqn:E; try reflexivity;
      assert (isNaN x = false) by (apply isNaN_false; rewrite E; discriminate);
      congruence.
  - destruct (isNaN x) eqn:E; [reflexivity|].
    apply isNaN_false in E. contradiction.
Qed.

Definition fkey (x : number) : Z * Z * Z := key (Prim2SF x).

Lemma ltb_true (x y : number) :
  isNaN x = false -> isNaN y = false ->
  ((x <? y)%float = true <-> lex_lt (fkey x) (fkey y)).
Proof.
  intros Hx Hy. apply isNaN_false in Hx, Hy.
  rewrite FloatAxioms.ltb_spec. unfold SFltb. rewrite SFcompare_key by assumption.
  unfold fkey. pose proof (lex_spec (key (Prim2SF x)) (key (Prim2SF y))) as L.
  destruct (lex (key (Prim2SF x)) (key (Prim2SF y)));
    destruct (key (Prim2SF x)) as [[a b] c], (key (Prim2SF y)) as [[a' b'] c'];
    simpl in *; split; intros H; try discriminate; try reflexivity;
    try assumption; try (inversion L; subst; lia); lia.
Qed.

Lemma leb_true (x y : number) :
  isNaN x = false -> isNaN y = false ->
  ((x <=? y)%float = true <-> lex_le (fkey x) (fkey y)).
Proof.
  intros Hx Hy. apply isNaN_false in Hx, Hy.
  rewrite FloatAxioms.leb_spec. unfold SFleb. rewrite SFcompare_key by assumption.
  unfold fkey. pose proof (lex_spec (key (Prim2SF x)) (key (Prim2SF y))) as L.
  destruct (lex (key (Prim2SF x)) (key (Prim2SF y)));
    destruct (key (Prim2SF x)) as [[a b] c], (key (Prim2SF y)) as [[a' b'] c'];
    simpl in *; split; intros H; try discriminate; try reflexivity;
    try (inversion L; subst; lia); lia.
Qed.

Lemma leb_nan_l (x y : number) : isNaN x = true -> (x <=? y)%float = false.
Proof.
  intros H. apply isNaN_true in H. rewrite FloatAxioms.leb_spec, H. reflexivity.
Qed.

Lemma leb_nan_r (x y : number) : isNaN y = true -> (x <=? y)%float = false.
Proof.
  intros H. apply isNaN_true in H. rewrite FloatAxioms.leb_spec, H.
  destruct (Prim2SF x); reflexivity.
Qed.

(** [x <= y] holds only between numbers. *)
Lemma leb_not_nan (x y : number) :
  (x <=? y)%float = true -> isNaN x = false /\ isNaN y = false.
Proof.
  intros H. split.
  - destruct (isNaN x) eqn:E; [|reflexivity].
    rewrite (leb_nan_l x y E) in H. discriminate.
  - destruct (isNaN y) eqn:E; [|reflexivity].
    rewrite (leb_nan_r x y E) in H. discriminate.
Qed.

Lemma leb_refl (x : number) : isNaN x = false -> (x <=? x)%float = true.
Proof.
  intros H. apply leb_true; try assumption.
  destruct (fkey x) as [[a b] c]. simpl. lia.
Qed.

Lemma leb_trans (x y z : number) :
  (x <=? y)%float = true -> (y <=? z)%float = true -> (x <=? z)%float = true.
Proof.
  intros H1 H2.
  destruct (leb_not_nan _ _ H1) as [Hx Hy].
  destruct (leb_not_nan _ _ H2) as [_ Hz].
  apply leb_true in H1, H2; try assumption. apply leb_true; try assumption.
  destruct (fkey x) as [[a b] c], (fkey y) as [[a' b'] c'],
    (fkey z) as [[a2 b2] c2]. simpl in *. lia.
Qed.

(** Two numbers are comparable: when [x < y] fails, [y <= x] holds. *)
Lemma ltb_false_leb (x y : number) :
  isNaN x = false -> isNaN y = false ->
  (x <? y)%float = false -> (y <=? x)%float = true.
Proof.
  intros Hx Hy H. apply leb_true; try assumption.
  destruct ((x <? y)%float) eqn:E; [discriminate|].
  assert (~ lex_lt (fkey x) (fkey y)) as N.
  { intros L. apply ltb_true in L; try assumption. congruence. }
  destruct (fkey x) as [[a b] c], (fkey y) as [[a' b'] c']. simpl in *. lia.
Qed.

Lemma ltb_leb (x y : number) :
  (x <? y)%float = true -> (x <=? y)%float = true.
Proof.
  intros H.
  assert (isNaN x = false /\ isNaN y = false) as [Hx Hy].
  { rewrite FloatAxioms.ltb_spec in H. unfold SFltb in H. split; apply isNaN_false; intros E;
      rewrite E in H; [|destruct (Prim2SF x)]; discriminate. }
  apply ltb_true in H; try assumption. apply leb_true; try assumption.
  destruct (fkey x) as [[a b] c], (fkey y) as [[a' b'] c']. simpl in *. lia.
Qed.

End FloatOrder.

Module FloatRound.
Import FloatOrder.
Local Open Scope Z_scope.

Lemma digits2_bounds (m : positive) :
  2 ^ (Zpos (digits2_pos m) - 1) <= Zpos m < 2 ^ Zpos (digits2_pos m).
Proof.
  induction m as [m IH|m IH|]; simpl digits2_pos.
  - rewrite Pos2Z.inj_succ.
    replace (Z.succ (Zpos (digits2_pos m)) - 1) with (Z.succ (Zpos (digits2_pos m) - 1)) by lia.
    rewrite !Z.pow_succ_r by lia. lia.
  - rewrite Pos2Z.inj_succ.
    replace (Z.succ (Zpos (digits2_pos m)) - 1) with (Z.succ (Zpos (digits2_pos m) - 1)) by lia.
    rewrite !Z.pow_succ_r by lia. lia.
  - simpl. lia.
Qed.

Lemma pos_iter_xO (d m : positive) :
  Zpos (Pos.iter xO m d) = Zpos m * 2 ^ Zpos d.
Proof.
  revert m. induction d using Pos.peano_ind; intros m.
  - simpl. lia.
  - rewrite Pos.iter_succ, Pos2Z.inj_succ, Z.pow_succ_r by lia.
    rewrite Pos2Z.inj_xO, IHd. lia.
Qed.

Lemma shl_align_fst (mx : positive) (ex ez : Z) :
  ez <= ex -> Zpos (fst (shl_align mx ex ez)) = Zpos mx * 2 ^ (ex - ez).
Proof.
  intros H. unfold shl_align.
  destruct (ez - ex) as [|d|d] eqn:E; simpl fst.
  - replace (ex - ez) with 0 by lia. simpl. lia.
  - lia.
  - rewrite pos_iter_xO. f_equal. f_equal. lia.
Qed.

Lemma shl_align_snd (mx : positive) (ex ez : Z) :
  snd (shl_align mx ex ez) = Z.min ex ez.
Proof.
  unfold shl_align. destruct (ez - ex) as [|d|d] eqn:E; simpl snd; lia.
Qed.

Lemma shr_1_m (mrs : shr_record) :
  0 <= shr_m mrs -> shr_m (shr_1 mrs) = shr_m mrs / 2.
Proof.
  destruct mrs as [m r s]. simpl. intros H.
  destruct m as [|p|p]; try lia.
  - reflexivity.
  - destruct p as [p|p|]; simpl shr_m.
    + rewrite Pos2Z.inj_xI. apply Z.div_unique with (r := 1); lia.
    + rewrite Pos2Z.inj_xO. apply Z.div_unique with (r := 0); lia.
    + reflexivity.
Qed.

Lemma iter_shr_1_m (p : positive) (mrs : shr_record) :
  0 <= shr_m mrs ->
  shr_m (iter_pos shr_1 p mrs) = shr_m mrs / 2 ^ Zpos p.
Proof.
  revert mrs. induction p as [p IH|p IH|]; intros mrs H; simpl iter_pos.
  - assert (0 <= shr_m (shr_1 mrs)) as H1.
    { rewrite shr_1_m by assumption. apply Z.div_pos; lia. }
    assert (0 <= shr_m (iter_pos shr_1 p (shr_1 mrs))) as H2.
    { rewrite IH by assumption. apply Z.div_pos; [assumption|].
      apply Z.pow_pos_nonneg; lia. }
    assert (0 < 2 ^ Zpos p) as Hp by (apply Z.pow_pos_nonneg; lia).
    assert (2 ^ Zpos p~1 = 2 * 2 ^ Zpos p * 2 ^ Zpos p) as ->.
    { assert (Zpos p~1 = 1 + Zpos p + Zpos p) as E by lia.
      rewrite E, !Z.pow_add_r by lia. reflexivity. }
    rewrite IH, IH, shr_1_m by assumption.
    rewrite !Z.div_div by lia. f_equal. lia.
  - assert (0 <= shr_m (iter_pos shr_1 p mrs)) as H2.
    { rewrite IH by assumption. apply Z.div_pos; [assumption|].
      apply Z.pow_pos_nonneg; lia. }
    assert (0 < 2 ^ Zpos p) as Hp by (apply Z.pow_pos_nonneg; lia).
    assert (2 ^ Zpos p~0 = 2 ^ Zpos p * 2 ^ Zpos p) as ->.
    { assert (Zpos p~0 = Zpos p + Zpos p) as E by lia.
      rewrite E, Z.pow_add_r by lia. reflexivity. }
    rewrite IH, IH by assumption.
    rewrite !Z.div_div by lia. reflexivity.
  - rewrite shr_1_m by assumption. reflexivity.
Qed.

Lemma shr_record_of_loc_m (m : Z) (l : location) :
  shr_m (shr_record_of_loc m l) = m.
Proof. destruct l as [|[]]; reflexivity. Qed.

(** Rounding a positive integer at an exponent that is not below [emin]
    never loses every digit. *)
Lemma shr_fexp_pos (m e : Z) (l : location) :
  0 < m -> -1074 <= e ->
  0 < shr_m (fst (shr_fexp prec emax m e l)) /\
  -1074 <= snd (shr_fexp prec emax m e l).
Proof.
  intros Hm He. unfold shr_fexp, shr.
  destruct m as [|pm|pm]; try lia. simpl Zdigits2.
  pose proof (digits2_bounds pm) as [B1 B2].
  set (d := Zpos (digits2_pos pm)) in *.
  unfold fexp, SpecFloat.emin, prec, emax.
  destruct (Z.max (d + e - 53) (3 - 1024 - 53) - e) as [|p|p] eqn:E; simpl fst; simpl snd.
  - rewrite shr_record_of_loc_m. lia.
  - rewrite iter_shr_1_m by (rewrite shr_record_of_loc_m; lia).
    rewrite shr_record_of_loc_m. split; [|lia].
    apply Z.div_str_pos. split; [apply Z.pow_pos_nonneg; lia|].
    apply Z.le_trans with (2 ^ (d - 1)); [|assumption].
    apply Z.pow_le_mono_r; lia.
  - rewrite shr_record_of_loc_m. lia.
Qed.

Lemma round_nearest_even_ge (m : Z) (l : location) :
  m <= round_nearest_even m l.
Proof.
  destruct l as [|[]]; simpl; try lia. destruct (Z.even m); lia.
Qed.

Definition has_sign (s : bool) (r : spec_float) : Prop :=
  match r with
  | S754_finite s' _ _ | S754_infinity s' => s' = s
  | _ => False
  end.

Definition sign_or_nan (s : bool) (r : spec_float) : Prop :=
  match r with
  | S754_finite s' _ _ | S754_infinity s' | S754_zero s' => s' = s
  | S754_nan => True
  end.

Lemma binary_round_aux_sign (s : bool) (m e : Z) (l : location) :
  sign_or_nan s (binary_round_aux prec emax s m e l).
Proof.
  unfold binary_round_aux.
  destruct (shr_fexp prec emax m e l) as [mrs' e'].
  destruct (shr_fexp prec emax _ e' loc_Exact) as [mrs'' e''].
  destruct (shr_m mrs''); simpl; auto.
  destruct (e'' <=? _); simpl; auto.
Qed.

Lemma binary_round_aux_pos (s : bool) (m e : Z) (l : location) :
  0 < m -> -1074 <= e ->
  has_sign s (binary_round_aux prec emax s m e l).
Proof.
  intros Hm He. unfold binary_round_aux.
  pose proof (shr_fexp_pos m e l Hm He) as [P1 P2].
  destruct (shr_fexp prec emax m e l) as [mrs' e']. simpl fst in *; simpl snd in *.
  pose proof (round_nearest_even_ge (shr_m mrs') (loc_of_shr_record mrs')) as G.
  assert (0 < round_nearest_even (shr_m mrs') (loc_of_shr_record mrs')) as Hr by lia.
  pose proof (shr_fexp_pos _ e' loc_Exact Hr P2) as [Q1 Q2].
  destruct (shr_fexp prec emax _ e' loc_Exact) as [mrs'' e''].
  simpl fst in *; simpl snd in *.
  destruct (shr_m mrs''); try lia.
  destruct (e'' <=? _); simpl; auto.
Qed.

Lemma binary_round_pos (s : bool) (m : positive) (e : Z) :
  -1074 <= e -> has_sign s (binary_round prec emax s m e).
Proof.
  intros He. unfold binary_round.
  pose proof (shl_align_snd m e (fexp prec emax (Zpos (digits2_pos m) + e))) as S.
  destruct (shl_align m e (fexp prec emax (Zpos (digits2_pos m) + e))) as [mz ez].
  simpl snd in S. apply binary_round_aux_pos; [lia|].
  subst ez. unfold fexp, SpecFloat.emin, prec, emax. lia.
Qed.

Lemma binary_normalize_sign (d e : Z) :
  -1074 <= e ->
  match d with
  | Z0 => binary_normalize prec emax d e false = S754_zero false
  | Zpos _ => has_sign false (binary_normalize prec emax d e false)
  | Zneg _ => has_sign true (binary_normalize prec emax d e false)
  end.
Proof.
  intros He. destruct d; simpl; auto using binary_round_pos.
Qed.

(** What validity says about a finite value. *)
Lemma bounded_facts (m : positive) (e : Z) :
  bounded prec emax m e = true ->
  -1074 <= e /\ Zpos m < 2 ^ 53 /\ (-1074 < e -> 2 ^ 52 <= Zpos m).
Proof.
  unfold bounded, canonical_mantissa, fexp, SpecFloat.emin, prec, emax.
  intros H. apply andb_true_iff in H. destruct H as [H _].
  apply Z.eqb_eq in H.
  pose proof (digits2_bounds m) as [B1 B2].
  set (d := Zpos (digits2_pos m)) in *.
  assert (0 < d) by (unfold d; lia).
  split; [lia|]. split.
  - apply Z.lt_le_trans with (2 ^ d); [assumption|].
    apply Z.pow_le_mono_r; lia.
  - intros He. assert (d = 53) as -> by lia. exact B1.
Qed.

End FloatRound.

Module FloatSub.
Import FloatOrder FloatRound JS.
Local Open Scope Z_scope.

Lemma pow2_ge_2 (k : Z) : 1 <= k -> 2 <= 2 ^ k.
Proof.
  intros H. replace k with (1 + (k - 1)) by lia.
  rewrite Z.pow_add_r by lia.
  assert (0 < 2 ^ (k - 1)) by (apply Z.pow_pos_nonneg; lia).
  simpl (2 ^ 1). lia.
Qed.

(** On valid finite values the order of the magnitudes is the order of the
    pairs (exponent, mantissa). *)
Lemma magnitude_order (mx my : positive) (ex ey : Z) :
  bounded prec emax mx ex = true -> bounded prec emax my ey = true ->
  let ez := Z.min ex ey in
  (Zpos mx * 2 ^ (ex - ez) < Zpos my * 2 ^ (ey - ez) <->
   ex < ey \/ (ex = ey /\ Zpos mx < Zpos my)).
Proof.
  intros Bx By ez.
  apply bounded_facts in Bx, By.
  destruct Bx as (Ex & Ux & Lx), By as (Ey & Uy & Ly).
  change (2 ^ 53) with 9007199254740992 in *.
  change (2 ^ 52) with 4503599627370496 in *.
  destruct (Z.lt_trichotomy ex ey) as [H|[H|H]].
  - assert (ez = ex) as -> by (unfold ez; lia).
    replace (ex - ex) with 0 by lia. rewrite Z.pow_0_r.
    pose proof (pow2_ge_2 (ey - ex) ltac:(lia)). specialize (Ly ltac:(lia)).
    split; [lia|]. intros _. nia.
  - subst ey. assert (ez = ex) as -> by (unfold ez; lia).
    replace (ex - ex) with 0 by lia. rewrite Z.pow_0_r. lia.
  - assert (ez = ey) as -> by (unfold ez; lia).
    replace (ey - ey) with 0 by lia. rewrite Z.pow_0_r.
    pose proof (pow2_ge_2 (ex - ey) ltac:(lia)). specialize (Lx ltac:(lia)).
    split; [|lia]. intros C. exfalso. nia.
Qed.

Lemma SFltb_zero_has_sign (s : bool) (r : spec_float) :
  has_sign s r -> SFltb (S754_zero false) r = negb s.
Proof.
  destruct r as [| s'| |s' m e]; simpl; try contradiction;
    intros ->; destruct s; reflexivity.
Qed.

Lemma SFltb_key (x y : spec_float) :
  x <> S754_nan -> y <> S754_nan ->
  (SFltb x y = true <-> lex_lt (key x) (key y)).
Proof.
  intros Hx Hy. unfold SFltb. rewrite SFcompare_key by assumption.
  pose proof (lex_spec (key x) (key y)) as L.
  destruct (lex (key x) (key y));
    destruct (key x) as [[a b] c], (key y) as [[a' b'] c'];
    simpl in *; split; intros H; try discriminate; try reflexivity;
    try assumption; try (inversion L; subst; lia); lia.
Qed.

(** The sign of a difference of two valid values is the sign the order
    predicts: subtraction never rounds a non-zero difference to zero and
    never changes its sign. *)
Lemma SFsub_positive (x y : spec_float) :
  valid_binary x = true -> valid_binary y = true ->
  x <> S754_nan -> y <> S754_nan ->
  SFltb (S754_zero false) (SFsub prec emax x y) = SFltb y x.
Proof.
  intros Vx Vy Nx Ny.
  destruct x as [sx|sx| |sx mx ex], y as [sy|sy| |sy my ey];
    try congruence;
    try (destruct sx, sy; reflexivity);
    try (destruct sx; reflexivity);
    try (destruct sy; reflexivity).
  simpl in Vx, Vy. unfold SFsub.
  pose proof (magnitude_order mx my ex ey Vx Vy) as M.
  pose proof (magnitude_order my mx ey ex Vy Vx) as M'.
  rewrite (Z.min_comm ey ex) in M'.
  pose proof (bounded_facts _ _ Vx) as (Ex & _ & _).
  pose proof (bounded_facts _ _ Vy) as (Ey & _ & _).
  set (ez := Z.min ex ey) in *. cbv zeta in M, M'.
  rewrite <- (shl_align_fst mx ex ez) in M, M' by (unfold ez; lia).
  rewrite <- (shl_align_fst my ey ez) in M, M' by (unfold ez; lia).
  set (A := Zpos (fst (shl_align mx ex ez))) in *.
  set (B := Zpos (fst (shl_align my ey ez))) in *.
  assert (0 < A) by (unfold A; lia). assert (0 < B) by (unfold B; lia).
  pose proof (binary_normalize_sign (cond_Zopp sx A - cond_Zopp sy B) ez
                ltac:(unfold ez; lia)) as S.
  assert (SFltb (S754_finite sy my ey) (S754_finite sx mx ex) = true <->
          lex_lt (key (S754_finite sy my ey)) (key (S754_finite sx mx ex))) as K
    by (apply SFltb_key; discriminate).
  destruct (cond_Zopp sx A - cond_Zopp sy B) as [|d|d] eqn:D.
  - rewrite S. simpl SFltb at 1.
    destruct (SFltb (S754_finite sy my ey) (S754_finite sx mx ex)); [|reflexivity].
    exfalso. destruct K as [K _]. specialize (K eq_refl).
    destruct sx, sy; unfold cond_Zopp in D; cbn [key lex_lt] in K; lia.
  - rewrite (SFltb_zero_has_sign false) by assumption. simpl negb.
    symmetry. apply K. destruct sx, sy; unfold cond_Zopp in D; cbn [key lex_lt]; lia.
  - rewrite (SFltb_zero_has_sign true) by assumption. simpl negb.
    destruct (SFltb (S754_finite sy my ey) (S754_finite sx mx ex)); [|reflexivity].
    exfalso. destruct K as [K _]. specialize (K eq_refl).
    destruct sx, sy; unfold cond_Zopp in D; cbn [key lex_lt] in K; lia.
Qed.

(** The comparator [(a, b) => a - b] is positive exactly when [b < a]. *)
Lemma sub_positive (a b : number) :
  isNaN a = false -> isNaN b = false ->
  (0 <? a - b)%float = (b <? a)%float.
Proof.
  intros Ha Hb. apply isNaN_false in Ha, Hb.
  rewrite !FloatAxioms.ltb_spec, FloatAxioms.sub_spec.
  change (Prim2SF 0) with (S754_zero false).
  apply SFsub_positive; auto using Prim2SF_valid.
Qed.

End FloatSub.

(** ** Stable insertion sort *)

Section SortFacts.
Context {A : Type}.
Variable after : A -> A -> bool.

Lemma insert_perm (x : A) (l : list A) :
  Permutation (Arr.insert after x l) (x :: l).
Proof.
  induction l as [|y l IH]; simpl.
  - apply Permutation_refl.
  - destruct (after y x).
    + apply Permutation_refl.
    + apply Permutation_trans with (y :: x :: l).
      * now apply perm_skip.
      * apply perm_swap.
Qed.

Lemma sort_from_perm (l acc : list A) :
  Permutation (fold_left (fun acc x => Arr.insert after x acc) l acc)
              (l ++ acc).
Proof.
  revert acc. induction l as [|x l IH]; intros acc; simpl.
  - apply Permutation_refl.
  - eapply Permutation_trans; [apply IH|].
    eapply Permutation_trans.
    + apply Permutation_app_head. apply insert_perm.
    + apply Permutation_sym. apply Permutation_middle.
Qed.

Lemma sort_perm (l : list A) : Permutation (Arr.sort after l) l.
Proof.
  unfold Arr.sort. eapply Permutation_trans; [apply sort_from_perm|].
  rewrite app_nil_r. apply Permutation_refl.
Qed.

Lemma sort_length (l : list A) :
  List.length (Arr.sort after l) = List.length l.
Proof. apply Permutation_length, sort_perm. Qed.

Variable dom : A -> Prop.
Variable le : A -> A -> Prop.
Hypothesis after_false :
  forall x y, dom x -> dom y -> after y x = false -> le y x.
Hypothesis after_true :
  forall x y, dom x -> dom y -> after y x = true -> le x y.
Hypothesis le_trans : forall x y z, le x y -> le y z -> le x z.

Lemma insert_sorted (x : A) (l : list A) :
  dom x -> Forall dom l -> StronglySorted le l ->
  StronglySorted le (Arr.insert after x l).
Proof.
  intros Dx Dl S. induction S as [|y l S IH F]; simpl.
  - repeat constructor.
  - inversion Dl as [|? ? Dy Dl']; subst.
    destruct (after y x) eqn:E.
    + assert (le x y) as Lxy by (apply after_true; assumption).
      constructor; [constructor; assumption|].
      constructor; [assumption|].
      eapply Forall_impl; [|exact F]. intros z. apply le_trans. exact Lxy.
    + assert (le y x) as Lyx by (apply after_false; assumption).
      constructor; [apply IH; assumption|].
      apply (Permutation_Forall (Permutation_sym (insert_perm x l))).
      constructor; assumption.
Qed.

Lemma sort_from_sorted (l acc : list A) :
  Forall dom l -> Forall dom acc -> StronglySorted le acc ->
  StronglySorted le (fold_left (fun acc x => Arr.insert after x acc) l acc).
Proof.
  revert acc. induction l as [|x l IH]; intros acc Dl Dacc S; simpl.
  - exact S.
  - inversion Dl; subst. apply IH; [assumption| |].
    + apply (Permutation_Forall (Permutation_sym (insert_perm x acc))).
      constructor; assumption.
    + apply insert_sorted; assumption.
Qed.

Lemma sort_sorted (l : list A) :
  Forall dom l -> StronglySorted le (Arr.sort after l).
Proof.
  intros D. apply sort_from_sorted; [assumption|constructor|constructor].
Qed.

End SortFacts.

Lemma StronglySorted_nth {A} (R : A -> A -> Prop) (l : list A) (d : A) :
  StronglySorted R l ->
  forall i j, (i < j < List.length l)%nat -> R (nth i l d) (nth j l d).
Proof.
  induction 1 as [|x l S IH F]; intros i j Hij; simpl in Hij; [lia|].
  destruct i as [|i], j as [|j]; try lia; simpl.
  - rewrite Forall_forall in F. apply F. apply nth_In. lia.
  - apply IH. lia.
Qed.

(** ** Sorting numbers *)

Section NumberSort.
Import JS FloatOrder.

Lemma validValues_numbers (data : list Row) (column : string) :
  Forall is_num (AnalysisPanel.validValues data column).
Proof.
  unfold AnalysisPanel.validValues. apply Forall_forall. intros x H.
  apply filter_In in H. destruct H as [_ H].
  now apply negb_true_iff in H.
Qed.

Lemma sortedValues_perm (l : list number) :
  Permutation (AnalysisPanel.sortedValues l) l.
Proof. apply sort_perm. Qed.

Lemma sortedValues_sorted (l : list number) :
  Forall is_num l -> StronglySorted fle (AnalysisPanel.sortedValues l).
Proof.
  intros D. unfold AnalysisPanel.sortedValues.
  apply (sort_sorted _ is_num fle); try assumption.
  - intros x y Dx Dy H. rewrite FloatSub.sub_positive in H by assumption.
    apply ltb_false_leb; assumption.
  - intros x y Dx Dy H. rewrite FloatSub.sub_positive in H by assumption.
    apply ltb_leb; assumption.
  - intros x y z. apply leb_trans.
Qed.

Lemma sortedValues_nth_le (l : list number) (i j : nat) :
  Forall is_num l -> (i <= j < List.length l)%nat ->
  fle (nth i (AnalysisPanel.sortedValues l) PrimFloat.nan)
      (nth j (AnalysisPanel.sortedValues l) PrimFloat.nan).
Proof.
  intros D H.
  assert (List.length (AnalysisPanel.sortedValues l) = List.length l) as L
    by apply sort_length.
  destruct (Nat.eq_dec i j) as [->|N].
  - apply leb_refl.
    assert (Forall is_num (AnalysisPanel.sortedValues l)) as D'
      by (apply (Permutation_Forall (Permutation_sym (sortedValues_perm l))); assumption).
    rewrite Forall_forall in D'. apply D'. apply nth_In. lia.
  - apply StronglySorted_nth; [apply sortedValues_sorted; assumption|lia].
Qed.

(** [Math.min] and [Math.max] bound every argument. *)

Lemma neg_zero_le_pos_zero (x y : number) :
  Math.is_neg_zero x = true -> Math.is_pos_zero y = true ->
  fle x y /\ fle y x.
Proof.
  unfold Math.is_neg_zero, Math.is_pos_zero, PrimFloat.is_zero. intros Hx Hy.
  apply andb_true_iff in Hx, Hy. destruct Hx as [Hx _], Hy as [Hy _].
  rewrite FloatAxioms.eqb_spec in Hx, Hy. unfold fle.
  rewrite !FloatAxioms.leb_spec.
  change (Prim2SF 0) with (S754_zero false) in *.
  destruct (Prim2SF x) as [| | |[] ? ?], (Prim2SF y) as [| | |[] ? ?];
    try discriminate; try (destruct s; discriminate);
    try (destruct s0; discriminate); split; reflexivity.
Qed.

Lemma min_fold_below (l : list number) (lowest : number) :
  Forall is_num l -> is_num lowest ->
  let m := fold_left
             (fun lowest x =>
                if Math.is_neg_zero x && Math.is_pos_zero lowest then x
                else if (x <? lowest)%float then x else lowest) l lowest in
  is_num m /\ fle m lowest /\ Forall (fle m) l.
Proof.
  revert lowest. induction l as [|x l IH]; intros lowest D Dl; simpl.
  - repeat split; [assumption|apply leb_refl; assumption|constructor].
  - inversion D as [|? ? Dx D']; subst.
    set (lowest' := if Math.is_neg_zero x && Math.is_pos_zero lowest then x
                    else if (x <? lowest)%float then x else lowest).
    assert (is_num lowest' /\ fle lowest' lowest /\ fle lowest' x)
      as (N & L1 & L2).
    { unfold lowest'.
      destruct (Math.is_neg_zero x && Math.is_pos_zero lowest) eqn:Z.
      - apply andb_true_iff in Z. destruct Z as [Z1 Z2].
        destruct (neg_zero_le_pos_zero _ _ Z1 Z2).
        repeat split; [assumption|assumption|apply leb_refl; assumption].
      - destruct ((x <? lowest)%float) eqn:C.
        + repeat split; [assumption|apply ltb_leb; assumption|apply leb_refl; assumption].
        + repeat split; [assumption|apply leb_refl; assumption|].
          apply ltb_false_leb; assumption. }
    destruct (IH lowest' D' N) as (N' & L & F).
    repeat split; [assumption| |constructor].
    + eapply leb_trans; eassumption.
    + eapply leb_trans; eassumption.
    + assumption.
Qed.

Lemma max_fold_above (l : list number) (highest : number) :
  Forall is_num l -> is_num highest ->
  let m := fold_left
             (fun highest x =>
                if Math.is_pos_zero x && Math.is_neg_zero highest then x
                else if (highest <? x)%float then x else highest) l highest in
  is_num m /\ fle highest m /\ Forall (fun x => fle x m) l.
Proof.
  revert highest. induction l as [|x l IH]; intros highest D Dl; simpl.
  - repeat split; [assumption|apply leb_refl; assumption|constructor].
  - inversion D as [|? ? Dx D']; subst.
    set (highest' := if Math.is_pos_zero x && Math.is_neg_zero highest then x
                     else if (highest <? x)%float then x else highest).
    assert (is_num highest' /\ fle highest highest' /\ fle x highest')
      as (N & L1 & L2).
    { unfold highest'.
      destruct (Math.is_pos_zero x && Math.is_neg_zero highest) eqn:Z.
      - apply andb_true_iff in Z. destruct Z as [Z1 Z2].
        destruct (neg_zero_le_pos_zero _ _ Z2 Z1).
        repeat split; [assumption|assumption|apply leb_refl; assumption].
      - destruct ((highest <? x)%float) eqn:C.
        + repeat split; [assumption|apply ltb_leb; assumption|apply leb_refl; assumption].
        + repeat split; [assumption|apply leb_refl; assumption|].
          apply ltb_false_leb; assumption. }
    destruct (IH highest' D' N) as (N' & L & F).
    repeat split; [assumption| |constructor].
    + eapply leb_trans; eassumption.
    + eapply leb_trans; eassumption.
    + assumption.
Qed.

Lemma no_nan_among (l : list number) :
  Forall is_num l -> existsb isNaN l = false.
Proof.
  induction 1 as [|x l H F IH]; simpl; [reflexivity|].
  unfold is_num in H. rewrite H, IH. reflexivity.
Qed.

Lemma min_below (l : list number) :
  Forall is_num l -> Forall (fle (Math.min l)) l.
Proof.
  intros D. unfold Math.min. rewrite no_nan_among by assumption.
  apply (min_fold_below l PrimFloat.infinity D). reflexivity.
Qed.

Lemma max_above (l : list number) :
  Forall is_num l -> Forall (fun x => fle x (Math.max l)) l.
Proof.
  intros D. unfold Math.max. rewrite no_nan_among by assumption.
  apply (max_fold_above l PrimFloat.neg_infinity D). reflexivity.
Qed.

End NumberSort.

(** ** Numeric statistics *)

Section NumericStatistics.
Import JS AnalysisPanel FloatOrder.

Lemma Arr_get_in_range (l : list number) (i : Z) :
  (0 <= i < Z.of_nat (List.length l))%Z ->
  Arr.get l i = VNumber (nth (Z.to_nat i) l PrimFloat.nan).
Proof.
  intros H. unfold Arr.get.
  destruct (i <? 0)%Z eqn:E; [lia|].
  destruct (nth_error l (Z.to_nat i)) as [x|] eqn:N.
  - f_equal. symmetry. now apply nth_error_nth.
  - apply nth_error_None in N. lia.
Qed.

Lemma Arr_get_out_of_range (l : list number) (i : Z) :
  (i < 0 \/ Z.of_nat (List.length l) <= i)%Z -> Arr.get l i = VUndefined.
Proof.
  intros H. unfold Arr.get.
  destruct (i <? 0)%Z eqn:E; [reflexivity|].
  destruct (nth_error l (Z.to_nat i)) as [x|] eqn:N; [|reflexivity].
  assert (nth_error l (Z.to_nat i) <> None) as N' by congruence.
  apply nth_error_Some in N'. lia.
Qed.

Lemma index_bounds (n : Z) :
  (1 <= n)%Z ->
  (0 <= q1_index n < n /\ 0 <= q3_index n < n /\ 0 <= mid_index n < n /\
   q1_index n <= mid_index n <= q3_index n /\
   (n mod 2 = 0 -> 0 <= n / 2 - 1))%Z.
Proof.
  intros H. unfold q1_index, q3_index, mid_index.
  pose proof (Z.div_mod n 4 ltac:(lia)).
  pose proof (Z.mod_pos_bound n 4 ltac:(lia)).
  pose proof (Z.div_mod n 2 ltac:(lia)).
  pose proof (Z.mod_pos_bound n 2 ltac:(lia)).
  pose proof (Z.div_mod (3 * n) 4 ltac:(lia)).
  pose proof (Z.mod_pos_bound (3 * n) 4 ltac:(lia)).
  repeat split; try lia.
Qed.

(** What [columnStats] returns on the numeric path. *)
Lemma columnStats_numeric (data : list Row) (column : string)
  (s : NumericStats.t) :
  columnStats data column = Some (Numeric s) ->
  let valid := validValues data column in
  let sorted := sortedValues valid in
  let n := Z.of_nat (List.length sorted) in
  valid <> [] /\
  s = NumericStats.mk
        (List.length valid) (List.length data - List.length valid)
        (Math.min valid) (Math.max valid)
        (Math.max valid - Math.min valid)%float
        (total valid)
        (total valid / of_nat (List.length valid))%float
        (median_of sorted)
        (Math.sqrt (variance_of valid
                      (total valid / of_nat (List.length valid))%float))
        (Arr.get sorted (q1_index n)) (Arr.get sorted (q3_index n)).
Proof.
  unfold columnStats, numericStats.
  destruct (Nat.eqb (List.length data) 0 || String.eqb column ""); [discriminate|].
  destruct (isNumericColumn data column); [|discriminate].
  destruct (Nat.eqb (List.length (validValues data column)) 0) eqn:E;
    [discriminate|].
  intros H. injection H as <-. split; [|reflexivity].
  now apply length_zero_cons.
Qed.

Lemma sqrt_not_negative (x : number) :
  (PrimFloat.sqrt x <? 0)%float = false.
Proof.
  rewrite FloatAxioms.ltb_spec, FloatAxioms.sqrt_spec.
  change (Prim2SF 0) with (S754_zero false).
  unfold SF64sqrt, SFsqrt.
  destruct (Prim2SF x) as [s|s| |s m e]; try (destruct s; reflexivity);
    try reflexivity.
  destruct s; [reflexivity|].
  destruct (SFsqrt_core_binary prec emax (Zpos m) e) as [[mz ez] lz].
  pose proof (FloatRound.binary_round_aux_sign false mz ez lz) as S.
  destruct (binary_round_aux prec emax false mz ez lz); simpl in S; subst;
    reflexivity.
Qed.

End NumericStatistics.

Section NumericClaims.
Import JS AnalysisPanel FloatOrder.

(** C10.  On a non-empty sorted sequence of length [n] every position the
    statistics read lies in [0 .. n-1]: [n/2 - 1] and [n/2] when [n] is even,
    [floor(n/2)] when [n] is odd, [floor(n * 0.25)] and [floor(n * 0.75)];
    each of these reads returns a number, never [undefined]. *)
Theorem statistics_reads_in_range (sorted : list number) :
  sorted <> [] ->
  let n := Z.of_nat (List.length sorted) in
  ((n mod 2 = 0 -> 0 <= n / 2 - 1 < n /\ 0 <= n / 2 < n) /\
   (n mod 2 = 1 -> 0 <= mid_index n < n) /\
   0 <= q1_index n < n /\ 0 <= q3_index n < n)%Z /\
  ((n mod 2 = 0)%Z ->
   (exists x, Arr.get sorted (n / 2 - 1) = VNumber x) /\
   (exists y, Arr.get sorted (n / 2) = VNumber y)) /\
  ((n mod 2 = 1)%Z -> exists m, Arr.get sorted (mid_index n) = VNumber m) /\
  (exists a, Arr.get sorted (q1_index n) = VNumber a) /\
  (exists b, Arr.get sorted (q3_index n) = VNumber b).
Proof.
  intros NE n.
  assert (1 <= n)%Z as Hn.
  { unfold n. destruct sorted; [congruence|]. simpl List.length. lia. }
  destruct (index_bounds n Hn) as (Q1 & Q3 & M & _ & E).
  assert (n mod 2 = 0 -> 0 <= n / 2 - 1 < n /\ 0 <= n / 2 < n)%Z as Ev.
  { intros E0. specialize (E E0). unfold mid_index in M. lia. }
  split; [|split; [|split; [|split]]].
  - repeat split; try lia; try (apply Ev; assumption).
  - intros E0. destruct (Ev E0) as [A B].
    split; eexists; apply Arr_get_in_range; assumption.
  - intros _. eexists. apply Arr_get_in_range. assumption.
  - eexists. apply Arr_get_in_range. assumption.
  - eexists. apply Arr_get_in_range. assumption.
Qed.

Lemma statistics_reads_in_range_witness :
  [1; 2; 3; 4]%float <> [] /\
  (exists a, Arr.get [1; 2; 3; 4]%float (q1_index 4) = VNumber a) /\
  (exists b, Arr.get [1; 2; 3; 4]%float (q3_index 4) = VNumber b).
Proof.
  split; [discriminate|].
  apply (statistics_reads_in_range [1; 2; 3; 4]%float). discriminate.
Defined.

Lemma index_mid (n : nat) :
  Z.to_nat (Z.of_nat n / 2) = (n / 2)%nat.
Proof.
  change 2%Z with (Z.of_nat 2).
  now rewrite <- Nat2Z.inj_div, Nat2Z.id.
Qed.

Lemma index_before_mid (n : nat) :
  Z.to_nat (Z.of_nat n / 2 - 1) = (n / 2 - 1)%nat.
Proof.
  change 2%Z with (Z.of_nat 2). rewrite <- Nat2Z.inj_div. lia.
Qed.

Lemma index_q1 (n : nat) :
  Z.to_nat (Z.of_nat n / 4) = (n / 4)%nat.
Proof.
  change 4%Z with (Z.of_nat 4).
  now rewrite <- Nat2Z.inj_div, Nat2Z.id.
Qed.

Lemma index_q3 (n : nat) :
  Z.to_nat (3 * Z.of_nat n / 4) = (3 * n / 4)%nat.
Proof.
  change 4%Z with (Z.of_nat 4). change 3%Z with (Z.of_nat 3).
  now rewrite <- Nat2Z.inj_mul, <- Nat2Z.inj_div, Nat2Z.id.
Qed.

Lemma even_mod2 (n : nat) :
  ((Z.of_nat n mod 2 =? 0)%Z = Nat.even n).
Proof.
  destruct (Nat.even n) eqn:E.
  - apply Nat.even_spec in E. destruct E as [k ->].
    apply Z.eqb_eq. rewrite Nat2Z.inj_mul. simpl (Z.of_nat 2).
    rewrite Z.mul_comm. apply Z.mod_mul. lia.
  - apply Z.eqb_neq. intros C.
    assert (Nat.odd n = true) as O by (rewrite <- Nat.negb_even, E; reflexivity).
    apply Nat.odd_spec in O. destruct O as [k ->].
    rewrite Nat2Z.inj_add, Nat2Z.inj_mul in C. simpl (Z.of_nat 2) in C.
    simpl (Z.of_nat 1) in C.
    rewrite Z.add_comm, Z.mul_comm, Z.mod_add in C by lia. discriminate.
Qed.

(** C5.  With the [n >= 1] valid values sorted ascending, the median is the
    average of the elements at [n/2 - 1] and [n/2] when [n] is even and the
    element at [floor(n/2)] when [n] is odd; [q1] is the element at
    [floor(n * 0.25)] and [q3] the element at [floor(n * 0.75)].  The sorted
    sequence is a rearrangement of the valid values in ascending order. *)
Theorem median_and_quartiles_positional (data : list Row) (column : string)
  (s : NumericStats.t) :
  columnStats data column = Some (Numeric s) ->
  let valid := validValues data column in
  let sorted := sortedValues valid in
  let n := List.length sorted in
  let elt i := nth i sorted PrimFloat.nan in
  (1 <= n)%nat /\ NumericStats.count s = n /\
  Permutation sorted valid /\ StronglySorted fle sorted /\
  NumericStats.median s =
    (if Nat.even n
     then VNumber ((elt (n / 2 - 1)%nat + elt (n / 2)%nat) / 2)%float
     else VNumber (elt (n / 2)%nat)) /\
  NumericStats.q1 s = VNumber (elt (n / 4)%nat) /\
  NumericStats.q3 s = VNumber (elt (3 * n / 4)%nat).
Proof.
  intros H. destruct (columnStats_numeric _ _ _ H) as [NE ->]. cbv zeta.
  cbn [NumericStats.count NumericStats.median NumericStats.q1 NumericStats.q3].
  assert (List.length (sortedValues (validValues data column)) =
          List.length (validValues data column)) as Ln by apply sort_length.
  set (valid := validValues data column) in *.
  set (sorted := sortedValues valid) in *.
  set (n := List.length sorted) in *.
  set (elt := fun i => nth i sorted PrimFloat.nan).
  assert (1 <= n)%nat as Hn.
  { rewrite Ln. destruct valid; [congruence|]. simpl. lia. }
  destruct (index_bounds (Z.of_nat n) ltac:(lia)) as (Q1 & Q3 & M & _ & Pre).
  split; [assumption|]. split; [symmetry; assumption|].
  split; [apply sortedValues_perm|].
  split; [apply sortedValues_sorted, validValues_numbers|].
  split; [|split].
  - unfold median_of. fold n. rewrite even_mod2.
    destruct (Nat.even n) eqn:Hev.
    + assert (Z.of_nat n mod 2 = 0)%Z as E0
        by (apply Z.eqb_eq; rewrite even_mod2; exact Hev).
      specialize (Pre E0). unfold mid_index in M.
      rewrite !Arr_get_in_range by (fold n; lia). cbn [ToNumber add].
      rewrite index_before_mid, index_mid. reflexivity.
    + rewrite Arr_get_in_range by (fold n; assumption).
      unfold mid_index. rewrite index_mid. reflexivity.
  - rewrite Arr_get_in_range by (fold n; assumption).
    unfold q1_index. rewrite index_q1. reflexivity.
  - rewrite Arr_get_in_range by (fold n; assumption).
    unfold q3_index. rewrite index_q3. reflexivity.
Qed.


Lemma median_and_quartiles_positional_witness :
  exists s,
    columnStats scenario "a" = Some (Numeric s) /\
    NumericStats.median s = VNumber 2%float /\
    NumericStats.q1 s = VNumber 1%float /\
    NumericStats.q3 s = VNumber 3%float.
Proof.
  eassert (E : columnStats scenario "a" = Some (Numeric _))
    by (vm_compute; reflexivity).
  destruct (median_and_quartiles_positional _ _ _ E)
    as (_ & _ & _ & _ & M & Q1 & Q3).
  eexists. split; [exact E|].
  split; [exact M|]. split; [exact Q1|exact Q3].
Defined.

(** C3 (as amended).  On the numeric path the quartiles are numbers with
    [min <= q1 <= q3 <= max], and when the number of valid values is odd the
    median is a number with [q1 <= median <= q3].  (The mean and the even-count
    median are rounded sums and are not covered.) *)
Theorem quartiles_within_min_max (data : list Row) (column : string)
  (s : NumericStats.t) :
  columnStats data column = Some (Numeric s) ->
  exists a b,
    NumericStats.q1 s = VNumber a /\ NumericStats.q3 s = VNumber b /\
    fle (NumericStats.min s) a /\ fle a b /\ fle b (NumericStats.max s) /\
    (Nat.odd (NumericStats.count s) = true ->
     exists m, NumericStats.median s = VNumber m /\ fle a m /\ fle m b).
Proof.
  intros H. destruct (columnStats_numeric _ _ _ H) as [NE ->]. cbv zeta.
  cbn [NumericStats.count NumericStats.median NumericStats.q1
       NumericStats.q3 NumericStats.min NumericStats.max].
  pose proof (validValues_numbers data column) as D.
  assert (List.length (sortedValues (validValues data column)) =
          List.length (validValues data column)) as Ln by apply sort_length.
  pose proof (sortedValues_perm (validValues data column)) as P.
  pose proof (min_below _ D) as Lo. pose proof (max_above _ D) as Hi.
  set (valid := validValues data column) in *.
  set (sorted := sortedValues valid) in *.
  set (n := List.length sorted) in *.
  assert (1 <= n)%nat as Hn.
  { assert (1 <= List.length valid)%nat
      by (destruct valid; [congruence|simpl; lia]). lia. }
  destruct (index_bounds (Z.of_nat n) ltac:(lia)) as (Q1 & Q3 & M & O & _).
  assert (forall i, (i < n)%nat -> In (nth i sorted PrimFloat.nan) valid) as Mem.
  { intros i Hi'. apply (Permutation_in _ P). apply nth_In. exact Hi'. }
  rewrite Forall_forall in Lo, Hi.
  exists (nth (Z.to_nat (q1_index (Z.of_nat n))) sorted PrimFloat.nan).
  exists (nth (Z.to_nat (q3_index (Z.of_nat n))) sorted PrimFloat.nan).
  split; [apply Arr_get_in_range; assumption|].
  split; [apply Arr_get_in_range; assumption|].
  split; [apply Lo, Mem; lia|].
  split; [apply sortedValues_nth_le; [assumption|lia]|].
  split; [apply Hi, Mem; lia|].
  intros Odd. unfold median_of. fold n. rewrite even_mod2.
  rewrite <- Nat.negb_odd. rewrite <- Ln in Odd. rewrite Odd. cbn [negb].
  exists (nth (Z.to_nat (mid_index (Z.of_nat n))) sorted PrimFloat.nan).
  split; [apply Arr_get_in_range; assumption|].
  split; apply sortedValues_nth_le; try assumption; lia.
Qed.

Lemma quartiles_within_min_max_witness :
  exists s a b,
    columnStats scenario "a" = Some (Numeric s) /\
    NumericStats.q1 s = VNumber a /\ NumericStats.q3 s = VNumber b /\
    fle (NumericStats.min s) a /\ fle a b /\ fle b (NumericStats.max s).
Proof.
  eassert (E : columnStats scenario "a" = Some (Numeric _))
    by (vm_compute; reflexivity).
  destruct (quartiles_within_min_max _ _ _ E)
    as (a & b & Ha & Hb & L1 & L2 & L3 & _).
  eexists _, a, b. split; [exact E|].
  repeat split; assumption.
Defined.

(** The mean of three cells holding 0.1 is 0.10000000000000002, above the
    maximum 0.1; the median of 1e308 and 1.5e308 overflows to [Infinity]. *)
Lemma mean_and_median_leave_range :
  (exists s,
     columnStats [[("a", VNumber 0.1)]; [("a", VNumber 0.1)];
                  [("a", VNumber 0.1)]]%float "a" = Some (Numeric s) /\
     (NumericStats.mean s <=? NumericStats.max s)%float = false) /\
  (exists s m,
     columnStats [[("a", VNumber 1e308)]; [("a", VNumber 1.5e308)]]%float "a"
       = Some (Numeric s) /\
     NumericStats.median s = VNumber m /\
     (m <=? NumericStats.max s)%float = false).
Proof.
  split.
  - eexists. split; vm_compute; reflexivity.
  - do 2 eexists. split; [vm_compute; reflexivity|].
    split; vm_compute; reflexivity.
Qed.

(** C6 (as amended).  The standard deviation is never negative: it is
    either NaN or a number [>= 0]. *)
Theorem stdDev_never_negative (data : list Row) (column : string)
  (s : NumericStats.t) :
  columnStats data column = Some (Numeric s) ->
  (NumericStats.stdDev s <? 0)%float = false /\
  (isNaN (NumericStats.stdDev s) = true \/ fle 0%float (NumericStats.stdDev s)).
Proof.
  intros H. destruct (columnStats_numeric _ _ _ H) as [_ ->]. cbv zeta.
  cbn [NumericStats.stdDev]. unfold Math.sqrt.
  split; [apply sqrt_not_negative|].
  destruct (isNaN (PrimFloat.sqrt _)) eqn:N; [left; reflexivity|right].
  apply ltb_false_leb; [assumption|reflexivity|apply sqrt_not_negative].
Qed.

Lemma stdDev_never_negative_witness :
  exists s,
    columnStats scenario "a" = Some (Numeric s) /\
    (NumericStats.stdDev s <? 0)%float = false.
Proof.
  eassert (E : columnStats scenario "a" = Some (Numeric _))
    by (vm_compute; reflexivity).
  eexists. split; [exact E|].
  exact (proj1 (stdDev_never_negative _ _ _ E)).
Defined.

(** Three equal values 0.1 have a standard deviation of about 1.4e-17; the
    values 0 and 1e-200 differ and have standard deviation 0, their squared
    deviations underflowing; a column that holds the text "Infinity" has the
    standard deviation NaN, which is not [>= 0]. *)
Lemma stdDev_zero_and_equal_values_differ :
  (exists s,
     columnStats [[("a", VNumber 0.1)]; [("a", VNumber 0.1)];
                  [("a", VNumber 0.1)]]%float "a" = Some (Numeric s) /\
     validValues [[("a", VNumber 0.1)]; [("a", VNumber 0.1)];
                  [("a", VNumber 0.1)]]%float "a" = [0.1; 0.1; 0.1]%float /\
     (NumericStats.stdDev s =? 0)%float = false) /\
  (exists s,
     columnStats [[("a", VNumber 0)]; [("a", VNumber 1e-200)]]%float "a"
       = Some (Numeric s) /\
     validValues [[("a", VNumber 0)]; [("a", VNumber 1e-200)]]%float "a"
       = [0; 1e-200]%float /\
     (0 =? 1e-200)%float = false /\
     (NumericStats.stdDev s =? 0)%float = true) /\
  (exists s,
     columnStats [[("a", VString "Infinity")]; [("a", VNumber 1%float)]] "a"
       = Some (Numeric s) /\
     (0 <=? NumericStats.stdDev s)%float = false).
Proof.
  split; [|split].
  - eexists. split; [vm_compute; reflexivity|]. split; vm_compute; reflexivity.
  - eexists. split; [vm_compute; reflexivity|].
    split; [vm_compute; reflexivity|]. split; vm_compute; reflexivity.
  - eexists. split; vm_compute; reflexivity.
Qed.

End NumericClaims.

(** ** Keys in first-seen order *)

Lemma mem_In (k : string) (ks : list string) : mem k ks = true <-> In k ks.
Proof.
  unfold mem. rewrite existsb_exists. split.
  - intros (x & H & E). apply String.eqb_eq in E. now subst.
  - intros H. exists k. split; [assumption|apply String.eqb_refl].
Qed.

Lemma mem_not_In (k : string) (ks : list string) :
  mem k ks = false <-> ~ In k ks.
Proof.
  rewrite <- mem_In. destruct (mem k ks); split; congruence.
Qed.

Lemma first_seen_snoc (l : list string) (k : string) :
  first_seen (l ++ [k]) =
  if mem k (first_seen l) then first_seen l else first_seen l ++ [k].
Proof. unfold first_seen. rewrite fold_left_app. reflexivity. Qed.

Lemma first_seen_In (l : list string) (k : string) :
  In k (first_seen l) <-> In k l.
Proof.
  induction l as [|x l IH] using rev_ind; [reflexivity|].
  rewrite first_seen_snoc, (in_app_iff l [x]).
  destruct (mem x (first_seen l)) eqn:E.
  - apply mem_In in E. split; [rewrite IH; tauto|].
    intros [H|[<-|[]]]; [now apply IH|assumption].
  - rewrite in_app_iff, IH. reflexivity.
Qed.

Lemma first_seen_NoDup (l : list string) : NoDup (first_seen l).
Proof.
  induction l as [|x l IH] using rev_ind; [constructor|].
  rewrite first_seen_snoc. destruct (mem x (first_seen l)) eqn:E; [assumption|].
  apply mem_not_In in E. apply NoDup_app; [assumption|repeat constructor; simpl; tauto|].
  intros y Hy [<-|[]]. contradiction.
Qed.

(** ** Objects built from a list of keys *)

Section ObjectFacts.
Context {A : Type}.

Definition tabulate (f : string -> A) (ks : list string) : Obj.t A :=
  map (fun k => (k, f k)) ks.

Lemma get_tabulate_in (f : string -> A) (ks : list string) (k : string) :
  In k ks -> Obj.get (tabulate f ks) k = Some (f k).
Proof.
  induction ks as [|x ks IH]; simpl; [tauto|]. intros H.
  destruct (String.eqb x k) eqn:E.
  - apply String.eqb_eq in E. now subst.
  - apply String.eqb_neq in E. destruct H as [H|H]; [congruence|auto].
Qed.

Lemma get_tabulate_out (f : string -> A) (ks : list string) (k : string) :
  ~ In k ks -> Obj.get (tabulate f ks) k = None.
Proof.
  induction ks as [|x ks IH]; simpl; [reflexivity|]. intros H.
  destruct (String.eqb x k) eqn:E.
  - apply String.eqb_eq in E. tauto.
  - apply IH. tauto.
Qed.

Lemma set_tabulate_in (f : string -> A) (ks : list string) (k : string)
  (v : A) :
  NoDup ks -> In k ks ->
  Obj.set (tabulate f ks) k v =
  tabulate (fun k' => if String.eqb k' k then v else f k') ks.
Proof.
  induction 1 as [|x ks N ND IH]; simpl; [tauto|]. intros H.
  destruct (String.eqb x k) eqn:E.
  - apply String.eqb_eq in E. subst x. f_equal.
    apply map_ext_in. intros y Hy.
    destruct (String.eqb y k) eqn:E'; [|reflexivity].
    apply String.eqb_eq in E'. subst. contradiction.
  - f_equal. apply IH. apply String.eqb_neq in E.
    destruct H; [congruence|assumption].
Qed.

Lemma set_tabulate_out (f : string -> A) (ks : list string) (k : string)
  (v : A) :
  ~ In k ks -> Obj.set (tabulate f ks) k v = tabulate f ks ++ [(k, v)].
Proof.
  induction ks as [|x ks IH]; simpl; [reflexivity|]. intros H.
  destruct (String.eqb x k) eqn:E.
  - apply String.eqb_eq in E. tauto.
  - f_equal. apply IH. tauto.
Qed.

Lemma tabulate_ext (f g : string -> A) (ks : list string) :
  (forall k, In k ks -> f k = g k) -> tabulate f ks = tabulate g ks.
Proof.
  intros H. apply map_ext_in. intros k Hk. now rewrite H.
Qed.

End ObjectFacts.

(** ** Grouping rows in a plain object *)

Section Grouping.
Context {G : Type}.
Variable key : Row -> string.
Variable init : string -> G.
Variable upd : Row -> G -> G.

(** The shape shared by the two [forEach] bodies of [chartData]. *)
Definition group_step (store : Obj.t G) (item : Row) : Obj.t G :=
  let k := key item in
  match Obj.get store k with
  | Some g => Obj.set store k (upd item g)
  | None =>
      if Obj.inherited k then store
      else Obj.set store k (upd item (init k))
  end.

Local Abbreviation rows_of := (Spec.rows_of key).
Local Abbreviation group_keys := (Spec.group_keys key).

Definition group_of (data : list Row) (k : string) : G :=
  fold_left (fun g item => upd item g) (rows_of k data) (init k).

Lemma rows_of_snoc (k : string) (data : list Row) (item : Row) :
  rows_of k (data ++ [item]) =
  if String.eqb (key item) k then rows_of k data ++ [item] else rows_of k data.
Proof.
  unfold Spec.rows_of. rewrite filter_app. simpl.
  destruct (String.eqb (key item) k); [reflexivity|apply app_nil_r].
Qed.

Lemma group_keys_snoc (data : list Row) (item : Row) :
  group_keys (data ++ [item]) =
  if Obj.inherited (key item) then group_keys data
  else if mem (key item) (group_keys data) then group_keys data
       else group_keys data ++ [key item].
Proof.
  unfold Spec.group_keys. rewrite map_app, filter_app. simpl.
  destruct (Obj.inherited (key item)); simpl.
  - now rewrite app_nil_r.
  - apply first_seen_snoc.
Qed.

Lemma rows_of_absent (k : string) (data : list Row) :
  Obj.inherited k = false -> ~ In k (group_keys data) -> rows_of k data = [].
Proof.
  intros NI H. unfold Spec.group_keys in H. rewrite first_seen_In in H.
  unfold Spec.rows_of. induction data as [|item data IH]; simpl; [reflexivity|].
  simpl in H. destruct (String.eqb (key item) k) eqn:E.
  - apply String.eqb_eq in E. exfalso. apply H. rewrite E, NI. simpl. now left.
  - apply IH. intros C. apply H.
    destruct (negb (Obj.inherited (key item))); [now right|assumption].
Qed.

Lemma group_keys_not_inherited (k : string) (data : list Row) :
  In k (group_keys data) -> Obj.inherited k = false.
Proof.
  unfold Spec.group_keys. rewrite first_seen_In, filter_In.
  intros [_ H]. now apply negb_true_iff in H.
Qed.

(** After the loop the object holds one group per key, in first-seen order
    of the keys, each group folded over its own rows. *)
Lemma grouping (data : list Row) :
  fold_left group_step data [] = tabulate (group_of data) (group_keys data).
Proof.
  induction data as [|item data IH] using rev_ind; [reflexivity|].
  rewrite fold_left_app, IH. simpl. unfold group_step.
  rewrite group_keys_snoc.
  pose proof (first_seen_NoDup
                (filter (fun k => negb (Obj.inherited k)) (map key data))) as ND.
  fold (Spec.group_keys key data) in ND.
  destruct (mem (key item) (group_keys data)) eqn:M.
  - apply mem_In in M. rewrite (group_keys_not_inherited _ _ M).
    rewrite get_tabulate_in by assumption.
    rewrite set_tabulate_in by assumption.
    apply tabulate_ext. intros k Hk. unfold group_of. rewrite rows_of_snoc.
    rewrite String.eqb_sym.
    destruct (String.eqb (key item) k) eqn:E.
    + apply String.eqb_eq in E. subst k. now rewrite fold_left_app.
    + reflexivity.
  - apply mem_not_In in M. rewrite get_tabulate_out by assumption.
    destruct (Obj.inherited (key item)) eqn:I.
    + apply tabulate_ext. intros k Hk. unfold group_of. rewrite rows_of_snoc.
      destruct (String.eqb (key item) k) eqn:E; [|reflexivity].
      apply String.eqb_eq in E. subst k.
      rewrite (group_keys_not_inherited _ _ Hk) in I. discriminate.
    + rewrite set_tabulate_out by assumption.
      unfold tabulate. rewrite map_app. simpl. f_equal.
      * apply map_ext_in. intros k Hk. f_equal. unfold group_of.
        rewrite rows_of_snoc.
        destruct (String.eqb (key item) k) eqn:E; [|reflexivity].
        apply String.eqb_eq in E. subst k. contradiction.
      * do 2 f_equal. unfold group_of. rewrite rows_of_snoc, String.eqb_refl.
        rewrite (rows_of_absent _ _ I M). reflexivity.
Qed.

End Grouping.

(** ** The order of [Object.values] *)

Section SortMap.
Context {A B : Type}.
Variable h : A -> B.
Variable after : A -> A -> bool.
Variable after' : B -> B -> bool.
Hypothesis after_h : forall a b, after' (h a) (h b) = after a b.

Lemma insert_map (x : A) (l : list A) :
  Arr.insert after' (h x) (map h l) = map h (Arr.insert after x l).
Proof.
  induction l as [|y l IH]; simpl; [reflexivity|].
  rewrite after_h. destruct (after y x); simpl; [reflexivity|].
  now rewrite IH.
Qed.

Lemma sort_from_map (l acc : list A) :
  fold_left (fun acc x => Arr.insert after' x acc) (map h l) (map h acc) =
  map h (fold_left (fun acc x => Arr.insert after x acc) l acc).
Proof.
  revert acc. induction l as [|x l IH]; intros acc; simpl; [reflexivity|].
  rewrite insert_map. apply IH.
Qed.

Lemma sort_map (l : list A) :
  Arr.sort after' (map h l) = map h (Arr.sort after l).
Proof. apply (sort_from_map l []). Qed.

End SortMap.

Lemma filter_map_comm {A B} (h : A -> B) (p : B -> bool) (l : list A) :
  filter p (map h l) = map h (filter (fun a => p (h a)) l).
Proof.
  induction l as [|x l IH]; simpl; [reflexivity|].
  destruct (p (h x)); simpl; now rewrite IH.
Qed.

Lemma values_tabulate {A} (f : string -> A) (ks : list string) :
  Obj.values (tabulate f ks) = map f (own_key_order ks).
Proof.
  unfold own_key_order.
  change (map (fun k => (k, tt)) ks) with (tabulate (fun _ => tt) ks).
  unfold Obj.values, Obj.keys, Obj.entries.
  set (h := fun p : string * unit => (fst p, f (fst p))).
  assert (tabulate f ks = map h (tabulate (fun _ => tt) ks)) as ->.
  { unfold tabulate. rewrite map_map. reflexivity. }
  rewrite !filter_map_comm.
  rewrite (sort_map h (fun y x => (Obj.index_of x <? Obj.index_of y)%N))
    by reflexivity.
  rewrite <- map_app, !map_map. reflexivity.
Qed.

Lemma own_key_order_perm (ks : list string) :
  Permutation (own_key_order ks) ks.
Proof.
  unfold own_key_order.
  change (map (fun k => (k, tt)) ks) with (tabulate (fun _ => tt) ks).
  unfold Obj.keys, Obj.entries.
  set (o := tabulate (fun _ => tt) ks).
  assert (map fst o = ks) as E.
  { unfold o, tabulate. rewrite map_map. simpl. apply map_id. }
  apply Permutation_trans with (map fst o);
    [|rewrite E; apply Permutation_refl].
  clear E. apply Permutation_map.
  eapply Permutation_trans.
  - apply Permutation_app_tail. apply sort_perm.
  - generalize o. clear o. intros o.
    induction o as [|p o IH]; simpl; [constructor|].
    destruct (Obj.is_index p); simpl.
    + now constructor.
    + eapply Permutation_trans; [|apply perm_skip; exact IH].
      apply Permutation_sym, Permutation_middle.
Qed.

(** Without array indices among the keys the order is the creation order. *)
Lemma own_key_order_plain (ks : list string) :
  Forall (fun k => Obj.array_index k = None) ks -> own_key_order ks = ks.
Proof.
  intros H. unfold own_key_order.
  change (map (fun k => (k, tt)) ks) with (tabulate (fun _ => tt) ks).
  unfold Obj.keys, Obj.entries.
  assert (filter Obj.is_index (tabulate (fun _ => tt) ks) = []) as ->.
  { induction H as [|k ks Hk F IH]; simpl; [reflexivity|].
    unfold Obj.is_index at 1. simpl. now rewrite Hk. }
  assert (filter (fun p => negb (Obj.is_index p)) (tabulate (fun _ => tt) ks)
          = tabulate (fun _ => tt) ks) as ->.
  { induction H as [|k ks Hk F IH]; simpl; [reflexivity|].
    unfold Obj.is_index at 1. simpl. rewrite Hk. simpl. now f_equal. }
  simpl. unfold tabulate. rewrite map_map. simpl. apply map_id.
Qed.

Lemma prop_tabulate (v : string -> JS.Value) (ks : list string) (k : string) :
  In k ks -> prop (tabulate v ks) k = v k.
Proof. intros H. unfold prop. now rewrite get_tabulate_in. Qed.

(** ** The groups of the bar and line charts *)

Section BarGroups.
Import JS ChartViewer.
Variable xAxisField : string.
Variable yAxisFields : list string.
Hypothesis distinct : NoDup yAxisFields.

Local Abbreviation group_sum := (Spec.group_sum xAxisField).
Local Abbreviation group_row := (Spec.group_row xAxisField yAxisFields).

Let fields : list string := first_seen (xAxisField :: yAxisFields).

Definition cell (k : string) (sigma : string -> number) (f : string) : Value :=
  if mem f yAxisFields then VNumber (sigma f) else VString k.

Lemma set_fields (sigma : string -> number) (fs pre : list string)
  (v : string -> Value) :
  fold_left (fun g f => Obj.set g f (VNumber (sigma f))) fs
            (tabulate v (first_seen pre)) =
  tabulate (fun f => if mem f fs then VNumber (sigma f) else v f)
           (first_seen (pre ++ fs)).
Proof.
  revert pre v. induction fs as [|f fs IH]; intros pre v; simpl.
  - now rewrite app_nil_r.
  - replace (pre ++ f :: fs) with ((pre ++ [f]) ++ fs)
      by (rewrite <- app_assoc; reflexivity).
    assert (Obj.set (tabulate v (first_seen pre)) f (VNumber (sigma f)) =
            tabulate (fun f' => if String.eqb f' f then VNumber (sigma f) else v f')
                     (first_seen (pre ++ [f]))) as ->.
    { rewrite first_seen_snoc. destruct (mem f (first_seen pre)) eqn:M.
      - apply mem_In in M. apply set_tabulate_in; [apply first_seen_NoDup|assumption].
      - apply mem_not_In in M. rewrite set_tabulate_out by assumption.
        unfold tabulate. rewrite map_app. simpl. rewrite String.eqb_refl.
        f_equal. apply map_ext_in. intros a Ha.
        destruct (String.eqb a f) eqn:E; [|reflexivity].
        apply String.eqb_eq in E. subst. contradiction. }
    rewrite IH. apply tabulate_ext. intros a _.
    unfold mem. simpl existsb. fold (mem a fs).
    destruct (String.eqb a f) eqn:E; simpl.
    + apply String.eqb_eq in E. subst a. destruct (mem f fs); reflexivity.
    + reflexivity.
Qed.

Lemma row_of_sums (k : string) (sigma : string -> number) :
  fold_left (fun g f => Obj.set g f (VNumber (sigma f))) yAxisFields
            [(xAxisField, VString k)] =
  tabulate (cell k sigma) fields.
Proof.
  change [(xAxisField, VString k)]
    with (tabulate (fun _ => VString k) (first_seen [xAxisField])).
  rewrite set_fields. reflexivity.
Qed.

Lemma fields_cover (f : string) : In f yAxisFields -> In f fields.
Proof. intros H. unfold fields. apply first_seen_In. now right. Qed.

Lemma accumulate_tabulate (item : Row) (fs : list string)
  (v : string -> Value) :
  NoDup fs -> (forall f, In f fs -> In f fields) ->
  fold_left
    (fun g field =>
       Obj.set g field (add (prop g field) (VNumber (yTerm item field))))
    fs (tabulate v fields) =
  tabulate (fun f => if mem f fs then add (v f) (VNumber (yTerm item f))
                     else v f) fields.
Proof.
  intros ND. revert v.
  induction ND as [|f fs N ND IH]; intros v Sub; cbn [fold_left].
  - reflexivity.
  - rewrite prop_tabulate by (apply Sub; now left).
    rewrite set_tabulate_in
      by (try apply first_seen_NoDup; apply Sub; now left).
    rewrite IH by (intros a Ha; apply Sub; now right).
    apply tabulate_ext. intros a _.
    unfold mem at 2. simpl existsb. fold (mem a fs).
    destruct (String.eqb a f) eqn:E; simpl.
    + apply String.eqb_eq in E. subst a.
      apply mem_not_In in N. now rewrite N.
    + reflexivity.
Qed.

Lemma accumulate_row (item : Row) (k : string) (sigma : string -> number) :
  accumulate yAxisFields item (tabulate (cell k sigma) fields) =
  tabulate (cell k (fun f => (sigma f + yTerm item f)%float)) fields.
Proof.
  unfold accumulate. rewrite accumulate_tabulate;
    [|assumption|apply fields_cover].
  apply tabulate_ext. intros f _. unfold cell.
  destruct (mem f yAxisFields); reflexivity.
Qed.

Lemma accumulate_rows (rows : list Row) (k : string)
  (sigma : string -> number) :
  fold_left (fun g item => accumulate yAxisFields item g) rows
            (tabulate (cell k sigma) fields) =
  tabulate
    (cell k (fun f => fold_left (fun acc item => (acc + yTerm item f)%float)
                                rows (sigma f)))
    fields.
Proof.
  revert sigma. induction rows as [|item rows IH]; intros sigma; simpl.
  - reflexivity.
  - rewrite accumulate_row. apply IH.
Qed.

Lemma bar_group (data : list Row) (k : string) :
  group_of (xKey xAxisField) (fun k => new_group xAxisField k yAxisFields)
           (accumulate yAxisFields) data k = group_row data k.
Proof.
  unfold group_of, Spec.group_row, new_group.
  rewrite (row_of_sums k (fun _ => 0%float)), accumulate_rows.
  rewrite row_of_sums. reflexivity.
Qed.

(** What the loop of the bar and line charts leaves in [groupedData], and
    what [Object.values] then returns. *)
Lemma bar_rows (data : list Row) :
  Obj.values (fold_left (bar_step xAxisField yAxisFields) data []) =
  map (group_row data) (own_key_order (group_keys (xKey xAxisField) data)).
Proof.
  change (bar_step xAxisField yAxisFields)
    with (group_step (xKey xAxisField)
            (fun k => new_group xAxisField k yAxisFields)
            (accumulate yAxisFields)).
  rewrite grouping, values_tabulate.
  apply map_ext. intros k. apply bar_group.
Qed.

(** A y field of an output row holds the sum of its group. *)
Lemma group_row_field (data : list Row) (k field : string) :
  In field yAxisFields ->
  prop (group_row data k) field = VNumber (group_sum data k field).
Proof.
  intros H. unfold Spec.group_row. rewrite row_of_sums.
  rewrite prop_tabulate by (apply fields_cover; assumption).
  unfold cell. apply mem_In in H. now rewrite H.
Qed.

(** The x field of an output row holds the key, unless it is a y field too. *)
Lemma group_row_key (data : list Row) (k : string) :
  ~ In xAxisField yAxisFields ->
  prop (group_row data k) xAxisField = VString k.
Proof.
  intros H. unfold Spec.group_row. rewrite row_of_sums.
  rewrite prop_tabulate by (apply first_seen_In; now left).
  unfold cell. apply mem_not_In in H. now rewrite H.
Qed.

End BarGroups.

(** ** The groups of the pie chart *)

Section PieGroups.
Import JS ChartViewer.
Variable xAxisField yField : string.

Local Abbreviation slice := (Spec.slice xAxisField yField).

Lemma pie_group (data : list Row) (k : string) :
  group_of (xKey xAxisField)
           (fun k => [("name", VString k); ("value", VNumber 0%float)])
           (fun item g =>
              Obj.set g "value"
                (add (prop g "value") (VNumber (yTerm item yField))))
           data k = slice data k.
Proof.
  unfold group_of, Spec.slice, Spec.group_sum.
  generalize (rows_of (xKey xAxisField) k data). intros rows.
  generalize 0%float. induction rows as [|item rows IH]; intros s; simpl.
  - reflexivity.
  - apply IH.
Qed.

Lemma pie_rows (data : list Row) :
  Obj.values (fold_left (pie_step xAxisField yField) data []) =
  map (slice data) (own_key_order (group_keys (xKey xAxisField) data)).
Proof.
  change (pie_step xAxisField yField)
    with (group_step (xKey xAxisField)
            (fun k => [("name", VString k); ("value", VNumber 0%float)])
            (fun item g =>
               Obj.set g "value"
                 (add (prop g "value") (VNumber (yTerm item yField))))).
  rewrite grouping, values_tabulate.
  apply map_ext. intros k. apply pie_group.
Qed.

End PieGroups.

Section ChartClaims.
Import JS ChartViewer.

Lemma chartData_bar (data : list Row) (chartType xAxisField : string)
  (yAxisFields : list string) :
  chartType = "bar" \/ chartType = "line" ->
  xAxisField <> "" -> yAxisFields <> [] -> NoDup yAxisFields ->
  chartData data chartType xAxisField yAxisFields =
  map (group_row xAxisField yAxisFields data)
      (own_key_order (group_keys (xKey xAxisField) data)).
Proof.
  intros CT X Y ND. unfold chartData.
  apply String.eqb_neq in X. rewrite X.
  apply length_zero_cons in Y. rewrite Y.
  destruct (Nat.eqb (List.length data) 0) eqn:D; simpl.
  - apply length_zero_nil in D. subst data. reflexivity.
  - assert (String.eqb chartType "bar" || String.eqb chartType "line" = true) as ->
      by (destruct CT as [-> | ->]; reflexivity).
    apply bar_rows. assumption.
Qed.

Lemma chartData_pie (data : list Row) (xAxisField yField : string)
  (rest : list string) :
  xAxisField <> "" ->
  chartData data "pie" xAxisField (yField :: rest) =
  map (slice xAxisField yField data)
      (own_key_order (group_keys (xKey xAxisField) data)).
Proof.
  intros X. unfold chartData.
  apply String.eqb_neq in X. rewrite X.
  destruct (Nat.eqb (List.length data) 0) eqn:D; simpl.
  - apply length_zero_nil in D. subst data. reflexivity.
  - apply pie_rows.
Qed.

Lemma group_keys_all (key : Row -> string) (data : list Row) :
  Forall (fun item => Obj.inherited (key item) = false) data ->
  group_keys key data = first_seen (map key data).
Proof.
  intros H. unfold group_keys. f_equal.
  induction H as [|item data Hi F IH]; simpl; [reflexivity|].
  rewrite Hi. simpl. now f_equal.
Qed.

(** C1 (as amended).  For a bar or line chart with an x field, a non-empty
    list of pairwise distinct y fields and a dataset none of whose x keys
    names a member of [Object.prototype], the aggregation returns exactly one
    row per distinct x key, in the order in which a plain object lists its
    keys: keys that are array indices first, in ascending numeric order, then
    the other keys in first-seen order.  The row of a key holds the key under
    the x field and, under each y field, the sum of that field over the rows
    of the key (a y field equal to the x field holds its sum). *)
Theorem bar_line_rows_in_own_key_order (data : list Row)
  (chartType xAxisField : string) (yAxisFields : list string) :
  chartType = "bar" \/ chartType = "line" ->
  xAxisField <> "" -> yAxisFields <> [] -> NoDup yAxisFields ->
  Forall (fun item => Obj.inherited (xKey xAxisField item) = false) data ->
  let keys := first_seen (map (xKey xAxisField) data) in
  chartData data chartType xAxisField yAxisFields =
    map (group_row xAxisField yAxisFields data) (own_key_order keys) /\
  Permutation (own_key_order keys) keys /\
  (Forall (fun k => Obj.array_index k = None) keys ->
   own_key_order keys = keys) /\
  forall k,
    (~ In xAxisField yAxisFields ->
     prop (group_row xAxisField yAxisFields data k) xAxisField = VString k) /\
    (forall field, In field yAxisFields ->
       prop (group_row xAxisField yAxisFields data k) field =
       VNumber (group_sum xAxisField data k field)).
Proof.
  intros CT X Y ND NI keys.
  split; [|split; [|split]].
  - rewrite chartData_bar by assumption.
    rewrite group_keys_all by assumption. reflexivity.
  - apply own_key_order_perm.
  - apply own_key_order_plain.
  - intros k. split.
    + apply group_row_key; assumption.
    + intros field. apply group_row_field; assumption.
Qed.

Lemma bar_line_rows_in_own_key_order_witness :
  chartData scenario "bar" "b" ["a"] =
  [ [("b", VString "x"); ("a", VNumber 4%float)];
    [("b", VString "y"); ("a", VNumber 2%float)] ].
Proof.
  refine (eq_trans
            (proj1 (bar_line_rows_in_own_key_order scenario "bar" "b" ["a"]
                      _ _ _ _ _)) _).
  - now left.
  - discriminate.
  - discriminate.
  - repeat constructor; simpl; tauto.
  - repeat constructor.
  - vm_compute. reflexivity.
Defined.

(** The years 2021 and 2020, met in this order, come out as "2020" then
    "2021"; and when the x field is also the y field the rows hold the sums
    in place of the x values. *)
Lemma bar_rows_not_in_first_seen_order :
  (map (xKey "year")
       [ [("year", VNumber 2021%float); ("sales", VNumber 5%float)];
         [("year", VNumber 2020%float); ("sales", VNumber 7%float)] ]
   = ["2021"; "2020"] /\
   chartData
       [ [("year", VNumber 2021%float); ("sales", VNumber 5%float)];
         [("year", VNumber 2020%float); ("sales", VNumber 7%float)] ]
       "bar" "year" ["sales"]
   = [ [("year", VString "2020"); ("sales", VNumber 7%float)];
       [("year", VString "2021"); ("sales", VNumber 5%float)] ]) /\
  chartData scenario "bar" "a" ["a"] =
  [ [("a", VNumber 1%float)]; [("a", VNumber 2%float)];
    [("a", VNumber 3%float)] ].
Proof. repeat split; vm_compute; reflexivity. Qed.

(** C4: the input on which the code and the claim part.  A row whose
    x cell holds the number 0 is present and has the string form "0", and
    [chartData] files it under "undefined". *)
Theorem zero_x_value_grouped_as_undefined :
  ToString (prop [("b", VNumber 0%float); ("a", VNumber 1%float)] "b") = "0" /\
  xKey "b" [("b", VNumber 0%float); ("a", VNumber 1%float)] = "undefined" /\
  chartData [[("b", VNumber 0%float); ("a", VNumber 1%float)]] "bar" "b" ["a"]
  = [[("b", VString "undefined"); ("a", VNumber 1%float)]].
Proof. repeat split; vm_compute; reflexivity. Qed.

(** C8.  In the aggregation a y value that does not convert to a number
    counts as 0: the term of a row is [Number(v) || 0].  The sum of a group
    has one term for each row of the group, for the bar and line charts and
    for the pie chart alike; [columnStats], in contrast, drops the values
    that do not convert. *)
Theorem unparseable_y_values_count_as_zero (data : list Row)
  (xAxisField : string) (yAxisFields : list string) :
  (forall item field,
     yTerm item field =
     if isNaN (ToNumber (prop item field))
        || PrimFloat.is_zero (ToNumber (prop item field))
     then 0%float else ToNumber (prop item field)) /\
  (forall k field,
     group_sum xAxisField data k field =
     fold_left (fun acc item => (acc + yTerm item field)%float)
               (filter (fun item => String.eqb (xKey xAxisField item) k) data)
               0%float) /\
  (forall chartType,
     chartType = "bar" \/ chartType = "line" ->
     xAxisField <> "" -> yAxisFields <> [] -> NoDup yAxisFields ->
     chartData data chartType xAxisField yAxisFields =
       map (group_row xAxisField yAxisFields data)
           (own_key_order (group_keys (xKey xAxisField) data)) /\
     forall k field, In field yAxisFields ->
       prop (group_row xAxisField yAxisFields data k) field =
       VNumber (group_sum xAxisField data k field)) /\
  (forall yField rest,
     xAxisField <> "" ->
     chartData data "pie" xAxisField (yField :: rest) =
       map (fun k => [("name", VString k);
                      ("value", VNumber (group_sum xAxisField data k yField))])
           (own_key_order (group_keys (xKey xAxisField) data))) /\
  (forall column x,
     In x (AnalysisPanel.validValues data column) -> isNaN x = false).
Proof.
  split; [|split; [|split; [|split]]].
  - intros item field. unfold yTerm, or_else, isNaN. cbn [ToBoolean].
    rewrite (orb_comm (PrimFloat.is_nan _)).
    destruct (PrimFloat.is_zero _ || PrimFloat.is_nan _); reflexivity.
  - reflexivity.
  - intros chartType CT X Y ND. split.
    + apply chartData_bar; assumption.
    + intros k field. apply group_row_field; assumption.
  - intros yField rest X. apply chartData_pie; assumption.
  - intros column x H.
    pose proof (validValues_numbers data column) as V.
    rewrite Forall_forall in V. now apply V.
Qed.

End ChartClaims.

Section EmptyResults.
Import JS AnalysisPanel ChartViewer.

(** C7.  [columnStats] returns [null] exactly when the dataset is empty, no
    column is selected, or the column is classified numeric and none of its
    values converts to a number; [chartData] returns the empty array when
    the dataset is empty, the x field is unset or no y field is selected.
    Both are total: they return in every case. *)
Theorem no_result_cases (data : list Row) (selectedColumn : string)
  (chartType xAxisField : string) (yAxisFields : list string) :
  (columnStats data selectedColumn = None <->
   data = [] \/ selectedColumn = "" \/
   (isNumericColumn data selectedColumn = true /\
    validValues data selectedColumn = [])) /\
  (data = [] \/ xAxisField = "" \/ yAxisFields = [] ->
   chartData data chartType xAxisField yAxisFields = []).
Proof.
  split.
  - unfold columnStats, numericStats.
    destruct (Nat.eqb (List.length data) 0) eqn:D; simpl.
    + apply length_zero_nil in D. split; [now left|reflexivity].
    + apply length_zero_cons in D.
      destruct (String.eqb selectedColumn "") eqn:C.
      * apply String.eqb_eq in C. split; [now (right; left)|reflexivity].
      * apply String.eqb_neq in C.
        destruct (isNumericColumn data selectedColumn).
        -- destruct (Nat.eqb (List.length (validValues data selectedColumn)) 0)
             eqn:V.
           ++ apply length_zero_nil in V. split; [|reflexivity].
              intros _. right; right. now split.
           ++ apply length_zero_cons in V. split; [discriminate|].
              intros [H|[H|[_ H]]]; contradiction.
        -- split; [discriminate|].
           intros [H|[H|[H _]]]; try contradiction. discriminate.
  - intros H. unfold chartData.
    destruct H as [-> | [-> | ->]]; simpl; [reflexivity| |].
    + now rewrite orb_true_r.
    + now rewrite orb_true_r.
Qed.

Lemma tally_all_empty (column : string) (data : list Row)
  (valueMap : Obj.t nat) (emptyCount : nat) :
  Forall (fun row => is_empty (prop row column) = true) data ->
  fold_left (tally column) data (valueMap, emptyCount) =
  (valueMap, emptyCount + List.length data).
Proof.
  intros H. revert emptyCount.
  induction H as [|row data E F IH]; intros emptyCount; simpl.
  - now rewrite Nat.add_0_r.
  - rewrite E, IH. f_equal. lia.
Qed.

(** C9.  On a non-empty dataset with a selected column that is classified
    categorical, [columnStats] always returns a categorical result, never
    [null].  The categorical computation returns a result even when every
    value of the column is empty: count 0, emptyCount the number of rows,
    uniqueCount 0, mode the empty string with frequency 0 and no
    frequencies. *)
Theorem categorical_always_has_result (data : list Row) (column : string) :
  (data <> [] -> column <> "" -> isNumericColumn data column = false ->
   columnStats data column =
   Some (Categorical (categoricalStats data column))) /\
  (Forall (fun row => is_empty (prop row column) = true) data ->
   categoricalStats data column =
   CategoricalStats.mk 0 (List.length data) 0 "" 0 []).
Proof.
  split.
  - intros D C N. unfold columnStats.
    apply length_zero_cons in D. apply String.eqb_neq in C.
    now rewrite D, C, N.
  - intros H. unfold categoricalStats.
    rewrite tally_all_empty by assumption. simpl.
    now rewrite Nat.sub_diag.
Qed.

Lemma categorical_always_has_result_witness :
  columnStats scenario "b" =
    Some (Categorical (CategoricalStats.mk 3 0 2 "x" 2 [("x", 2); ("y", 1)])) /\
  categoricalStats [[("a", VNumber 1%float)]; [("b", VString "")]] "b" =
    CategoricalStats.mk 0 2 0 "" 0 [].
Proof.
  split.
  - refine (eq_trans
              (proj1 (categorical_always_has_result scenario "b") _ _ _) _).
    + discriminate.
    + discriminate.
    + vm_compute. reflexivity.
    + vm_compute. reflexivity.
  - apply (proj2 (categorical_always_has_result
                    [[("a", VNumber 1%float)]; [("b", VString "")]] "b")).
    repeat constructor.
Defined.

End EmptyResults.

(** * Further properties of the components *)

(** ** Counting rows *)

Section Counting.
Import JS AnalysisPanel.

Lemma filter_split_length {A} (p : A -> bool) (l : list A) :
  List.length (filter p l) + List.length (filter (fun x => negb (p x)) l)
  = List.length l.
Proof.
  induction l as [|x l IH]; simpl; [reflexivity|].
  destruct (p x); simpl; lia.
Qed.

Lemma validValues_length (data : list Row) (column : string) :
  List.length (validValues data column) =
  List.length (filter (fun row => negb (isNaN (ToNumber (prop row column)))) data).
Proof.
  unfold validValues. induction data as [|row data IH]; simpl; [reflexivity|].
  destruct (isNaN (ToNumber (prop row column))); simpl; now rewrite IH.
Qed.

Lemma tally_counts (column : string) (data : list Row)
  (valueMap : Obj.t nat) (emptyCount : nat) :
  snd (fold_left (tally column) data (valueMap, emptyCount)) =
  emptyCount
  + List.length (filter (fun row => is_empty (prop row column)) data).
Proof.
  revert valueMap emptyCount.
  induction data as [|row data IH]; intros valueMap emptyCount; simpl.
  - lia.
  - destruct (is_empty (prop row column)); rewrite IH; simpl; lia.
Qed.

(** On both paths the two counters add up to the number of rows.  On the
    numeric path [count] is the number of rows whose cell converts to a number
    and [emptyCount] the number of rows whose cell converts to NaN; on the
    categorical path [emptyCount] is the number of rows whose cell is
    [undefined], [null] or the empty string. *)
Theorem counts_add_up (data : list Row) (column : string) :
  match columnStats data column with
  | Some (Numeric s) =>
      NumericStats.count s + NumericStats.emptyCount s = List.length data /\
      1 <= NumericStats.count s /\
      NumericStats.emptyCount s =
      List.length
        (filter (fun row => isNaN (ToNumber (prop row column))) data)
  | Some (Categorical s) =>
      CategoricalStats.count s + CategoricalStats.emptyCount s
      = List.length data /\
      CategoricalStats.emptyCount s =
      List.length (filter (fun row => is_empty (prop row column)) data)
  | None => True
  end.
Proof.
  unfold columnStats.
  destruct (Nat.eqb (List.length data) 0 || String.eqb column ""); [exact I|].
  destruct (isNumericColumn data column).
  - unfold numericStats.
    destruct (Nat.eqb (List.length (validValues data column)) 0) eqn:E;
      [exact I|].
    cbn [NumericStats.count NumericStats.emptyCount].
    apply Nat.eqb_neq in E.
    pose proof (filter_split_length
                  (fun row => negb (isNaN (ToNumber (prop row column)))) data)
      as S.
    rewrite <- validValues_length in S.
    assert (filter (fun x => negb (negb (isNaN (ToNumber (prop x column))))) data
            = filter (fun row => isNaN (ToNumber (prop row column))) data) as F
      by (apply filter_ext; intros a; apply negb_involutive).
    rewrite F in S. clear F. revert E S.
    generalize (List.length (validValues data column))
               (List.length
                  (filter (fun row => isNaN (ToNumber (prop row column))) data))
               (List.length data).
    intros a b c E S. lia.
  - unfold categoricalStats.
    destruct (fold_left (tally column) data _) as [valueMap emptyCount] eqn:F.
    assert (emptyCount =
            List.length (filter (fun row => is_empty (prop row column)) data))
      as T.
    { change emptyCount with (snd (valueMap, emptyCount)). rewrite <- F.
      apply (tally_counts column data [] 0). }
    destruct (find_mode valueMap) as [mode modeFrequency].
    cbn [CategoricalStats.count CategoricalStats.emptyCount].
    pose proof (filter_split_length
                  (fun row => is_empty (prop row column)) data) as S.
    revert T S.
    generalize (List.length
                  (filter (fun row => is_empty (prop row column)) data))
               (List.length
                  (filter (fun x => negb (is_empty (prop x column))) data))
               (List.length data).
    intros a b c T S. lia.
Qed.


(** Only the first five rows are sampled: the rows after them never change
    the classification. *)
Theorem classification_reads_five_rows (sample rest : list Row)
  (column : string) :
  List.length sample = 5 ->
  isNumericColumn (sample ++ rest) column = isNumericColumn sample column.
Proof.
  intros L. unfold isNumericColumn.
  rewrite firstn_app, L. simpl (5 - 5). rewrite firstn_O, app_nil_r.
  rewrite length_app, L.
  destruct sample; [discriminate|]. reflexivity.
Qed.

Lemma classification_reads_five_rows_witness :
  isNumericColumn
    (scenario ++ scenario ++ [[("a", VString "abc")]]) "a" = true.
Proof.
  refine (eq_trans
            (classification_reads_five_rows
               (scenario ++ firstn 2 scenario)
               (skipn 2 scenario ++ [[("a", VString "abc")]]) "a" _) _).
  - reflexivity.
  - vm_compute. reflexivity.
Defined.

End Counting.

(** ** The range of the valid values and the comparator of the sort *)

Section RangeAndComparator.
Import JS AnalysisPanel FloatOrder FloatRound.

(** On the numeric path every valid value lies between [min] and [max],
    [min <= max], and [range] is their difference. *)
Theorem valid_values_within_min_max (data : list Row) (column : string)
  (s : NumericStats.t) :
  columnStats data column = Some (Numeric s) ->
  (forall x, In x (validValues data column) ->
     fle (NumericStats.min s) x /\ fle x (NumericStats.max s)) /\
  fle (NumericStats.min s) (NumericStats.max s) /\
  NumericStats.range s = (NumericStats.max s - NumericStats.min s)%float.
Proof.
  intros H. destruct (columnStats_numeric _ _ _ H) as [NE ->]. cbv zeta.
  cbn [NumericStats.min NumericStats.max NumericStats.range].
  pose proof (validValues_numbers data column) as D.
  pose proof (min_below _ D) as Lo. pose proof (max_above _ D) as Hi.
  rewrite Forall_forall in Lo, Hi.
  split; [|split; [|reflexivity]].
  - intros x Hx. split; [apply Lo|apply Hi]; assumption.
  - destruct (validValues data column) as [|x l]; [congruence|].
    apply leb_trans with x; [apply Lo|apply Hi]; now left.
Qed.

Lemma valid_values_within_min_max_witness :
  exists s,
    columnStats scenario "a" = Some (Numeric s) /\
    fle (NumericStats.min s) (NumericStats.max s).
Proof.
  eassert (E : columnStats scenario "a" = Some (Numeric _))
    by (vm_compute; reflexivity).
  eexists. split; [exact E|].
  exact (proj1 (proj2 (valid_values_within_min_max _ _ _ E))).
Defined.

Lemma SFltb_has_sign_zero (s : bool) (r : spec_float) :
  has_sign s r -> SFltb r (S754_zero false) = s.
Proof.
  destruct r as [| s'| |s' m e]; simpl; try contradiction;
    intros ->; destruct s; reflexivity.
Qed.

Lemma SFsub_negative (x y : spec_float) :
  valid_binary x = true -> valid_binary y = true ->
  x <> S754_nan -> y <> S754_nan ->
  SFltb (SFsub prec emax x y) (S754_zero false) = SFltb x y.
Proof.
  intros Vx Vy Nx Ny.
  destruct x as [sx|sx| |sx mx ex], y as [sy|sy| |sy my ey];
    try congruence;
    try (destruct sx, sy; reflexivity);
    try (destruct sx; reflexivity);
    try (destruct sy; reflexivity).
  simpl in Vx, Vy. unfold SFsub.
  pose proof (FloatSub.magnitude_order mx my ex ey Vx Vy) as M.
  pose proof (FloatSub.magnitude_order my mx ey ex Vy Vx) as M'.
  rewrite (Z.min_comm ey ex) in M'.
  pose proof (bounded_facts _ _ Vx) as (Ex & _ & _).
  pose proof (bounded_facts _ _ Vy) as (Ey & _ & _).
  set (ez := Z.min ex ey) in *. cbv zeta in M, M'.
  rewrite <- (shl_align_fst mx ex ez) in M, M' by (unfold ez; lia).
  rewrite <- (shl_align_fst my ey ez) in M, M' by (unfold ez; lia).
  set (A := Zpos (fst (shl_align mx ex ez))) in *.
  set (B := Zpos (fst (shl_align my ey ez))) in *.
  assert (0 < A)%Z by (unfold A; lia). assert (0 < B)%Z by (unfold B; lia).
  pose proof (binary_normalize_sign (cond_Zopp sx A - cond_Zopp sy B) ez
                ltac:(unfold ez; lia)) as S.
  assert (SFltb (S754_finite sx mx ex) (S754_finite sy my ey) = true <->
          lex_lt (key (S754_finite sx mx ex)) (key (S754_finite sy my ey))) as K
    by (apply FloatSub.SFltb_key; discriminate).
  destruct (cond_Zopp sx A - cond_Zopp sy B)%Z as [|d|d] eqn:D.
  - rewrite S. simpl SFltb at 1.
    destruct (SFltb (S754_finite sx mx ex) (S754_finite sy my ey)); [|reflexivity].
    exfalso. destruct K as [K _]. specialize (K eq_refl).
    destruct sx, sy; unfold cond_Zopp in D; cbn [key lex_lt] in K; lia.
  - rewrite (SFltb_has_sign_zero false) by assumption.
    destruct (SFltb (S754_finite sx mx ex) (S754_finite sy my ey)); [|reflexivity].
    exfalso. destruct K as [K _]. specialize (K eq_refl).
    destruct sx, sy; unfold cond_Zopp in D; cbn [key lex_lt] in K; lia.
  - rewrite (SFltb_has_sign_zero true) by assumption.
    symmetry. apply K. destruct sx, sy; unfold cond_Zopp in D; cbn [key lex_lt]; lia.
Qed.

(** The comparator [(a, b) => a - b] of the sort is positive exactly when
    [a > b] and negative exactly when [a < b], for all numbers other than
    NaN: the subtraction never rounds a non-zero difference to zero and never
    gives it the wrong sign, also when it overflows. *)
Theorem comparator_sign (a b : number) :
  isNaN a = false -> isNaN b = false ->
  (0 <? a - b)%float = (b <? a)%float /\
  (a - b <? 0)%float = (a <? b)%float.
Proof.
  intros Ha Hb. split; [now apply FloatSub.sub_positive|].
  apply isNaN_false in Ha, Hb.
  rewrite !FloatAxioms.ltb_spec, FloatAxioms.sub_spec.
  change (Prim2SF 0) with (S754_zero false).
  apply SFsub_negative; auto using Prim2SF_valid.
Qed.

Lemma comparator_sign_witness :
  (0 <? 1.5e308 - (-1.5e308))%float = true /\
  (5e-324 - 1e-323 <? 0)%float = true.
Proof.
  destruct (comparator_sign 1.5e308%float (-1.5e308)%float eq_refl eq_refl)
    as [P _].
  destruct (comparator_sign 5e-324%float 1e-323%float eq_refl eq_refl)
    as [_ N].
  split; [rewrite P|rewrite N]; reflexivity.
Defined.

End RangeAndComparator.

(** ** The frequency table of a categorical column *)

Section Frequencies.
Import JS AnalysisPanel.

Lemma value_strings_snoc (data : list Row) (row : Row) (column : string) :
  value_strings (data ++ [row]) column =
  if is_empty (prop row column) then value_strings data column
  else value_strings data column ++ [ToString (prop row column)].
Proof.
  unfold value_strings. rewrite map_app, filter_app, map_app. simpl.
  destruct (is_empty (prop row column)); simpl; [apply app_nil_r|reflexivity].
Qed.

Lemma occurrences_snoc (k x : string) (l : list string) :
  occurrences k (l ++ [x]) =
  occurrences k l + (if String.eqb k x then 1 else 0).
Proof.
  unfold occurrences. rewrite filter_app, length_app. simpl.
  destruct (String.eqb k x); reflexivity.
Qed.

Lemma occurrences_absent (k : string) (l : list string) :
  ~ In k l -> occurrences k l = 0.
Proof.
  unfold occurrences. induction l as [|x l IH]; simpl; [reflexivity|].
  intros H. destruct (String.eqb k x) eqn:E.
  - apply String.eqb_eq in E. subst. exfalso. apply H. now left.
  - apply IH. tauto.
Qed.

Lemma occurrences_present (k : string) (l : list string) :
  In k l -> 1 <= occurrences k l.
Proof.
  unfold occurrences. induction l as [|x l IH]; simpl; [tauto|].
  intros H. destruct (String.eqb k x) eqn:E; simpl; [lia|].
  apply String.eqb_neq in E. apply IH. destruct H; [congruence|assumption].
Qed.

(** The [Map] after the loop: one entry per distinct string, in first-seen
    order, with the number of its occurrences. *)
Lemma tally_map (data : list Row) (column : string) :
  fst (fold_left (tally column) data ([], 0)) =
  tabulate (fun k => occurrences k (value_strings data column))
           (first_seen (value_strings data column)).
Proof.
  induction data as [|row data IH] using rev_ind; [reflexivity|].
  rewrite fold_left_app. simpl fold_left.
  destruct (fold_left (tally column) data ([], 0)) as [valueMap emptyCount].
  simpl in IH. subst valueMap. unfold tally.
  rewrite value_strings_snoc.
  destruct (is_empty (prop row column)); [reflexivity|].
  set (keys := value_strings data column).
  set (k := ToString (prop row column)).
  cbn [fst]. rewrite first_seen_snoc.
  destruct (mem k (first_seen keys)) eqn:M.
  - apply mem_In in M. rewrite get_tabulate_in by assumption.
    rewrite set_tabulate_in by (try apply first_seen_NoDup; assumption).
    apply tabulate_ext. intros k' _. rewrite occurrences_snoc.
    rewrite (String.eqb_sym k' k). destruct (String.eqb k k') eqn:E.
    + apply String.eqb_eq in E. now subst.
    + lia.
  - apply mem_not_In in M. rewrite get_tabulate_out by assumption.
    rewrite set_tabulate_out by assumption.
    unfold tabulate. rewrite map_app. simpl. f_equal.
    + apply map_ext_in. intros k' Hk'. f_equal. rewrite occurrences_snoc.
      destruct (String.eqb k' k) eqn:E; [|lia].
      apply String.eqb_eq in E. subst. contradiction.
    + rewrite occurrences_snoc, String.eqb_refl.
      rewrite occurrences_absent; [reflexivity|].
      intros C. apply M. now apply first_seen_In.
Qed.

Lemma In_firstn {A} (n : nat) (l : list A) (x : A) :
  In x (firstn n l) -> In x l.
Proof.
  intros H. rewrite <- (firstn_skipn n l). apply in_or_app. now left.
Qed.

Lemma firstn_sorted {A} (R : A -> A -> Prop) (n : nat) (l : list A) :
  StronglySorted R l -> StronglySorted R (firstn n l).
Proof.
  intros S. revert n. induction S as [|x l S IH F]; intros [|n]; simpl;
    try constructor.
  - apply IH.
  - rewrite Forall_forall in *. intros y Hy. apply F.
    eapply In_firstn. exact Hy.
Qed.

(** The head of the stable descending sort is the first entry with the
    highest count, which is what [find_mode] returns. *)
Lemma mode_heads_sort (l acc : list (string * nat)) (m : string * nat) :
  Forall (fun p => 1 <= snd p) l ->
  (acc = [] /\ snd m = 0) \/ hd_error acc = Some m ->
  let sorted :=
    fold_left
      (fun acc x => Arr.insert (fun a b => Nat.ltb (snd a) (snd b)) x acc)
      l acc in
  let best :=
    fold_left
      (fun (acc : string * nat) (p : string * nat) =>
         let '(mode, modeFrequency) := acc in
         let '(value, freq) := p in
         if Nat.ltb modeFrequency freq then (value, freq)
         else (mode, modeFrequency)) l m in
  (sorted = [] /\ snd best = 0) \/ hd_error sorted = Some best.
Proof.
  revert acc m. induction l as [|x l IH]; intros acc m P R; simpl.
  - exact R.
  - inversion P as [|? ? Px P']; subst. apply IH; [assumption|].
    right. destruct m as [mode modeFrequency], x as [value freq].
    simpl in Px. destruct R as [[-> Z]|R].
    + simpl in Z. subst modeFrequency. simpl.
      destruct freq; [lia|reflexivity].
    + destruct acc as [|y acc]; [discriminate|]. simpl in R.
      injection R as ->. simpl.
      destruct (Nat.ltb modeFrequency freq); reflexivity.
Qed.

Lemma find_mode_max (l : list (string * nat)) (m : string * nat) :
  let best :=
    fold_left
      (fun (acc : string * nat) (p : string * nat) =>
         let '(mode, modeFrequency) := acc in
         let '(value, freq) := p in
         if Nat.ltb modeFrequency freq then (value, freq)
         else (mode, modeFrequency)) l m in
  snd m <= snd best /\ Forall (fun p => snd p <= snd best) l.
Proof.
  revert m. induction l as [|x l IH]; intros m; simpl.
  - split; [lia|constructor].
  - destruct m as [mode modeFrequency], x as [value freq].
    destruct (Nat.ltb modeFrequency freq) eqn:E.
    + apply Nat.ltb_lt in E. destruct (IH (value, freq)) as [B F].
      simpl in *. split; [lia|]. constructor; assumption.
    + apply Nat.ltb_ge in E. destruct (IH (mode, modeFrequency)) as [B F].
      simpl in *. split; [lia|]. constructor; [simpl; lia|assumption].
Qed.

Lemma list_sum_firstn (n : nat) (l : list nat) :
  list_sum (firstn n l) <= list_sum l.
Proof.
  revert n. induction l as [|x l IH]; intros [|n]; simpl; try lia.
  specialize (IH n). lia.
Qed.

Lemma list_sum_perm (l l' : list nat) :
  Permutation l l' -> list_sum l = list_sum l'.
Proof. induction 1; simpl; lia. Qed.

Lemma indicator_sum (x : string) (ks : list string) :
  NoDup ks -> In x ks ->
  list_sum (map (fun k => if String.eqb k x then 1 else 0) ks) = 1.
Proof.
  induction 1 as [|k ks N ND IH]; simpl; [tauto|]. intros H.
  destruct (String.eqb k x) eqn:E.
  - apply String.eqb_eq in E. subst k.
    assert (list_sum (map (fun k => if String.eqb k x then 1 else 0) ks) = 0)
      as ->; [|reflexivity].
    clear IH H ND. induction ks as [|k ks IH]; simpl; [reflexivity|].
    destruct (String.eqb k x) eqn:E.
    + apply String.eqb_eq in E. subst. exfalso. apply N. now left.
    + apply IH. intros C. apply N. now right.
  - apply String.eqb_neq in E. simpl. apply IH.
    destruct H; [congruence|assumption].
Qed.

Lemma occurrences_total (keys ks : list string) :
  NoDup ks -> (forall k, In k keys -> In k ks) ->
  list_sum (map (fun k => occurrences k keys) ks) = List.length keys.
Proof.
  intros ND. induction keys as [|x keys IH] using rev_ind; intros Sub.
  - clear. unfold occurrences. simpl.
    induction ks as [|k ks IHk]; simpl; [reflexivity|exact IHk].
  - rewrite length_app. simpl.
    rewrite <- IH by (intros k Hk; apply Sub, in_app_iff; now left).
    rewrite <- (indicator_sum x ks ND)
      by (apply Sub, in_app_iff; right; now left).
    clear IH Sub ND. induction ks as [|k ks IHk]; simpl; [reflexivity|].
    rewrite occurrences_snoc, IHk. lia.
Qed.

Lemma columnStats_categorical (data : list Row) (column : string)
  (s : CategoricalStats.t) :
  columnStats data column = Some (Categorical s) ->
  s = categoricalStats data column.
Proof.
  unfold columnStats.
  destruct (Nat.eqb (List.length data) 0 || String.eqb column "");
    [discriminate|].
  destruct (isNumericColumn data column).
  - destruct (numericStats data column); discriminate.
  - intros H. now injection H.
Qed.

(** The categorical result in closed form. *)
Lemma categorical_result (data : list Row) (column : string)
  (s : CategoricalStats.t) :
  columnStats data column = Some (Categorical s) ->
  let keys := value_strings data column in
  let table := tabulate (fun k => occurrences k keys) (first_seen keys) in
  s = CategoricalStats.mk
        (List.length keys)
        (List.length (filter (fun row => is_empty (prop row column)) data))
        (List.length (first_seen keys))
        (fst (find_mode table)) (snd (find_mode table))
        (firstn 10 (Arr.sort (fun a b => Nat.ltb (snd a) (snd b)) table)).
Proof.
  intros H keys table.
  apply columnStats_categorical in H. subst s.
  unfold categoricalStats.
  pose proof (tally_map data column) as T. fold keys in T. fold table in T.
  destruct (fold_left (tally column) data _) as [valueMap emptyCount] eqn:F.
  assert (emptyCount =
          List.length (filter (fun row => is_empty (prop row column)) data))
    as C2.
  { change emptyCount with (snd (valueMap, emptyCount)). rewrite <- F.
    apply (tally_counts column data [] 0). }
  simpl in T. subst valueMap.
  destruct (find_mode table) as [mode modeFrequency]. simpl fst. simpl snd.
  f_equal.
  - unfold keys, value_strings. rewrite length_map.
    pose proof (filter_split_length
                  (fun row => is_empty (prop row column)) data) as S.
    assert (List.length
              (filter (fun v => negb (is_empty v))
                      (map (fun row => prop row column) data)) =
            List.length
              (filter (fun x => negb (is_empty (prop x column))) data)) as ->.
    { clear. induction data as [|row data IH]; simpl; [reflexivity|].
      destruct (is_empty (prop row column)); simpl; now rewrite IH. }
    rewrite C2. apply Nat.add_sub_eq_l. exact S.
  - exact C2.
  - unfold table, tabulate. apply length_map.
Qed.

(** The frequency table: the distinct string forms of the non-empty cells
    with their numbers of occurrences, listed in first-seen order, sorted
    by descending count with a stable sort, and cut to ten entries.
    [uniqueCount] is the number of distinct strings and [count] the number of
    non-empty cells. *)
Theorem frequency_table (data : list Row) (column : string)
  (s : CategoricalStats.t) :
  columnStats data column = Some (Categorical s) ->
  let keys := value_strings data column in
  CategoricalStats.frequencies s =
    firstn 10
      (Arr.sort (fun a b => Nat.ltb (snd a) (snd b))
         (map (fun k => (k, occurrences k keys)) (first_seen keys))) /\
  CategoricalStats.uniqueCount s = List.length (first_seen keys) /\
  CategoricalStats.count s = List.length keys /\
  List.length (CategoricalStats.frequencies s)
    = Nat.min 10 (CategoricalStats.uniqueCount s) /\
  StronglySorted (fun p q => snd q <= snd p) (CategoricalStats.frequencies s) /\
  (forall k n, In (k, n) (CategoricalStats.frequencies s) ->
     In k keys /\ n = occurrences k keys /\ 1 <= n).
Proof.
  intros H keys. rewrite (categorical_result _ _ _ H). fold keys.
  cbn [CategoricalStats.frequencies CategoricalStats.uniqueCount
       CategoricalStats.count].
  set (table := tabulate (fun k => occurrences k keys) (first_seen keys)).
  set (sorted := Arr.sort (fun a b => Nat.ltb (snd a) (snd b)) table).
  assert (Permutation sorted table) as P by apply sort_perm.
  assert (List.length table = List.length (first_seen keys)) as Lt
    by (unfold table, tabulate; apply length_map).
  split; [reflexivity|]. split; [reflexivity|]. split; [reflexivity|].
  split.
  { rewrite length_firstn. rewrite (Permutation_length P), Lt. reflexivity. }
  split.
  { apply firstn_sorted.
    apply (sort_sorted _ (fun _ => True) (fun p q => snd q <= snd p)).
    - intros x y _ _ E. apply Nat.ltb_ge in E. exact E.
    - intros x y _ _ E. apply Nat.ltb_lt in E. lia.
    - intros x y z. lia.
    - apply Forall_forall. intros; exact I. }
  intros k n Hin. apply In_firstn in Hin.
  apply (Permutation_in _ P) in Hin. unfold table, tabulate in Hin.
  apply in_map_iff in Hin. destruct Hin as (k' & E & Hk').
  injection E as -> <-. apply (proj1 (first_seen_In _ _)) in Hk'.
  split; [assumption|]. split; [reflexivity|].
  now apply occurrences_present.
Qed.

Lemma frequency_table_witness :
  exists s,
    columnStats scenario "b" = Some (Categorical s) /\
    CategoricalStats.frequencies s = [("x", 2); ("y", 1)].
Proof.
  eassert (E : columnStats scenario "b" = Some (Categorical _))
    by (vm_compute; reflexivity).
  eexists. split; [exact E|].
  exact (proj1 (frequency_table _ _ _ E)).
Defined.

Lemma hd_error_firstn {A} (n : nat) (l : list A) :
  hd_error (firstn (S n) l) = hd_error l.
Proof. destruct l; reflexivity. Qed.

(** The mode is the top entry of the frequency table: the first-seen string
    among those that occur most often, with its number of occurrences.  No
    string occurs more often than [modeFrequency].  Without non-empty cells
    the mode is the empty string with frequency 0. *)
Theorem mode_is_top_of_table (data : list Row) (column : string)
  (s : CategoricalStats.t) :
  columnStats data column = Some (Categorical s) ->
  let keys := value_strings data column in
  (keys = [] ->
   CategoricalStats.mode s = "" /\ CategoricalStats.modeFrequency s = 0 /\
   CategoricalStats.frequencies s = []) /\
  (keys <> [] ->
   hd_error (CategoricalStats.frequencies s) =
     Some (CategoricalStats.mode s, CategoricalStats.modeFrequency s) /\
   In (CategoricalStats.mode s) keys /\
   CategoricalStats.modeFrequency s =
     occurrences (CategoricalStats.mode s) keys) /\
  (forall k, occurrences k keys <= CategoricalStats.modeFrequency s).
Proof.
  intros H keys. rewrite (categorical_result _ _ _ H). fold keys.
  cbn [CategoricalStats.frequencies CategoricalStats.mode
       CategoricalStats.modeFrequency].
  set (table := tabulate (fun k => occurrences k keys) (first_seen keys)).
  set (sorted := Arr.sort (fun a b => Nat.ltb (snd a) (snd b)) table).
  assert (Permutation sorted table) as P by apply sort_perm.
  assert (Forall (fun p => 1 <= snd p) table) as Pos.
  { apply Forall_forall. intros [k n] Hin. unfold table, tabulate in Hin.
    apply in_map_iff in Hin. destruct Hin as (k' & E & Hk').
    injection E as -> <-. apply occurrences_present.
    now apply (proj1 (first_seen_In _ _)). }
  pose proof (mode_heads_sort table [] (""%string, 0) Pos
                (or_introl (conj eq_refl eq_refl))) as M.
  cbv zeta in M. fold (find_mode table) in M.
  fold (Arr.sort (fun a b => Nat.ltb (snd a) (snd b)) table) in M.
  fold sorted in M.
  pose proof (find_mode_max table (""%string, 0)) as [_ Mx].
  fold (find_mode table) in Mx.
  split; [|split].
  - intros E. unfold sorted, table. rewrite E. repeat split.
  - intros NE.
    assert (table <> []) as NT.
    { unfold table, tabulate. destruct keys as [|k keys'] eqn:K; [congruence|].
      assert (In k (first_seen (k :: keys'))) as I
        by (apply first_seen_In; now left).
      intros C. apply map_eq_nil in C. rewrite C in I. exact I. }
    destruct M as [[E _]|M].
    { exfalso. apply NT. apply Permutation_nil. rewrite <- E. exact P. }
    rewrite hd_error_firstn, M.
    destruct (find_mode table) as [mode modeFrequency]. simpl fst. simpl snd.
    split; [reflexivity|].
    assert (In (mode, modeFrequency) table) as Hin.
    { apply (Permutation_in _ P). destruct sorted; [discriminate|].
      simpl in M. injection M as ->. now left. }
    unfold table, tabulate in Hin. apply in_map_iff in Hin.
    destruct Hin as (k' & E & Hk'). injection E as -> <-.
    split; [now apply (proj1 (first_seen_In _ _))|reflexivity].
  - intros k. destruct (in_dec string_dec k keys) as [Hk|Hk].
    + rewrite Forall_forall in Mx.
      apply (Mx (k, occurrences k keys)).
      unfold table, tabulate. apply in_map_iff. exists k.
      split; [reflexivity|now apply first_seen_In].
    + rewrite occurrences_absent by assumption. lia.
Qed.

Lemma mode_is_top_of_table_witness :
  exists s,
    columnStats scenario "b" = Some (Categorical s) /\
    hd_error (CategoricalStats.frequencies s) =
      Some (CategoricalStats.mode s, CategoricalStats.modeFrequency s).
Proof.
  eassert (E : columnStats scenario "b" = Some (Categorical _))
    by (vm_compute; reflexivity).
  eexists. split; [exact E|].
  apply (proj1 (proj2 (mode_is_top_of_table _ _ _ E))). discriminate.
Defined.

(** The frequencies listed never add up to more than [count], and they add
    up to [count] when at most ten distinct strings occur. *)
Theorem frequencies_sum (data : list Row) (column : string)
  (s : CategoricalStats.t) :
  columnStats data column = Some (Categorical s) ->
  list_sum (map snd (CategoricalStats.frequencies s))
    <= CategoricalStats.count s /\
  (CategoricalStats.uniqueCount s <= 10 ->
   list_sum (map snd (CategoricalStats.frequencies s))
     = CategoricalStats.count s).
Proof.
  intros H. rewrite (categorical_result _ _ _ H).
  cbn [CategoricalStats.frequencies CategoricalStats.uniqueCount
       CategoricalStats.count].
  set (keys := value_strings data column).
  set (table := tabulate (fun k => occurrences k keys) (first_seen keys)).
  set (sorted := Arr.sort (fun a b => Nat.ltb (snd a) (snd b)) table).
  assert (Permutation sorted table) as P by apply sort_perm.
  assert (list_sum (map snd sorted) = List.length keys) as Total.
  { rewrite (list_sum_perm _ _ (Permutation_map snd P)).
    unfold table, tabulate. rewrite map_map. simpl.
    apply occurrences_total; [apply first_seen_NoDup|].
    intros k Hk. now apply first_seen_In. }
  split.
  - rewrite <- Total, <- firstn_map. apply list_sum_firstn.
  - intros U. rewrite firstn_all2; [exact Total|].
    rewrite (Permutation_length P). unfold table, tabulate.
    rewrite length_map. exact U.
Qed.

Lemma frequencies_sum_witness :
  exists s,
    columnStats scenario "b" = Some (Categorical s) /\
    list_sum (map snd (CategoricalStats.frequencies s))
      = CategoricalStats.count s.
Proof.
  eassert (E : columnStats scenario "b" = Some (Categorical _))
    by (vm_compute; reflexivity).
  eexists. split; [exact E|].
  apply (proj2 (frequencies_sum _ _ _ E)). simpl. lia.
Defined.

End Frequencies.

(** ** The selection of the chart's fields *)

Section Selection.
Import JS ChartViewer.

Lemma includes_In (l : list string) (x : string) :
  includes l x = true <-> In x l.
Proof. apply mem_In. Qed.

(** [toggleYAxisField] keeps the list of y fields free of repetitions and
    never empties it; a field that is absent is appended, a field that is
    present is removed unless it is the only one. *)
Theorem toggle_keeps_y_fields_valid (yAxisFields : list string)
  (field : string) :
  NoDup yAxisFields ->
  NoDup (toggleYAxisField yAxisFields field) /\
  toggleYAxisField yAxisFields field <> [] /\
  (~ In field yAxisFields ->
   toggleYAxisField yAxisFields field = yAxisFields ++ [field]) /\
  (In field yAxisFields -> 2 <= List.length yAxisFields ->
   ~ In field (toggleYAxisField yAxisFields field) /\
   forall f, f <> field ->
     (In f (toggleYAxisField yAxisFields field) <-> In f yAxisFields)) /\
  (yAxisFields = [field] -> toggleYAxisField yAxisFields field = [field]).
Proof.
  intros ND. unfold toggleYAxisField.
  destruct (includes yAxisFields field) eqn:I.
  - apply includes_In in I.
    destruct (Nat.ltb 1 (List.length yAxisFields)) eqn:L.
    + apply Nat.ltb_lt in L.
      assert (forall f, In f (filter (fun f => negb (String.eqb f field))
                                     yAxisFields)
                        <-> In f yAxisFields /\ f <> field) as F.
      { intros f. rewrite filter_In, negb_true_iff, String.eqb_neq.
        reflexivity. }
      split; [now apply NoDup_filter|]. split; [|split; [|split]].
      * destruct yAxisFields as [|a [|b l]]; simpl in L; try lia.
        intros C. inversion ND as [|? ? Na _]; subst.
        assert (a <> b) as Nab by (intros ->; apply Na; now left).
        assert (In a (filter (fun f => negb (String.eqb f field)) (a :: b :: l))
                \/ In b (filter (fun f => negb (String.eqb f field))
                                (a :: b :: l))) as [X|X].
        { destruct (string_dec a field) as [->|Ha].
          - right. apply F. split; [right; now left|congruence].
          - left. apply F. split; [now left|assumption]. }
        -- rewrite C in X. exact X.
        -- rewrite C in X. exact X.
      * intros N. contradiction.
      * intros _ _. split.
        -- intros C. apply F in C. tauto.
        -- intros f Nf. rewrite F. tauto.
      * intros ->. simpl in L. lia.
    + apply Nat.ltb_ge in L.
      split; [assumption|]. split; [|split; [|split]].
      * destruct yAxisFields; [contradiction|discriminate].
      * intros N. contradiction.
      * intros _ L2. lia.
      * intros ->. reflexivity.
  - assert (~ In field yAxisFields) as N
      by (intros C; apply includes_In in C; congruence).
    split; [|split; [|split; [|split]]].
    + apply NoDup_app; [assumption|repeat constructor; simpl; tauto|].
      intros f Hf [<-|[]]. contradiction.
    + destruct yAxisFields; discriminate.
    + reflexivity.
    + intros C. contradiction.
    + intros ->. exfalso. apply N. now left.
Qed.

Lemma toggle_keeps_y_fields_valid_witness :
  NoDup ["a"; "b"] /\
  toggleYAxisField ["a"; "b"] "a" = ["b"] /\
  NoDup (toggleYAxisField ["a"; "b"] "a").
Proof.
  assert (NoDup ["a"; "b"]) as ND.
  { constructor; [simpl; intros [C|[]]; discriminate|].
    constructor; [simpl; tauto|constructor]. }
  split; [assumption|]. split; [reflexivity|].
  exact (proj1 (toggle_keeps_y_fields_valid ["a"; "b"] "a" ND)).
Defined.

(** The two components classify alike; in the chart every column is either
    numeric or categorical, never both; and the default selection, when one
    is made, is a categorical x field with a single numeric y field. *)
Theorem columns_split_by_type (data : list Row) :
  (forall column,
     ColumnTypes.isNumericColumn data column
     = AnalysisPanel.isNumericColumn data column) /\
  Permutation (ColumnTypes.numericColumns data
               ++ ColumnTypes.categoricalColumns data)
              (ColumnTypes.columns data) /\
  (forall column,
     In column (ColumnTypes.numericColumns data) ->
     In column (ColumnTypes.categoricalColumns data) -> False) /\
  (forall x ys,
     defaultSelection data = Some (x, ys) ->
     In x (ColumnTypes.columns data) /\
     AnalysisPanel.isNumericColumn data x = false /\
     exists y, ys = [y] /\ In y (ColumnTypes.columns data) /\
               AnalysisPanel.isNumericColumn data y = true /\ x <> y).
Proof.
  split; [reflexivity|]. split; [|split].
  - unfold ColumnTypes.numericColumns, ColumnTypes.categoricalColumns.
    generalize (ColumnTypes.columns data). intros l.
    induction l as [|c l IH]; simpl; [constructor|].
    destruct (ColumnTypes.isNumericColumn data c); simpl.
    + now constructor.
    + eapply Permutation_trans; [|apply perm_skip; exact IH].
      apply Permutation_sym, Permutation_middle.
  - unfold ColumnTypes.numericColumns, ColumnTypes.categoricalColumns.
    intros column H1 H2. apply filter_In in H1, H2.
    destruct H1 as [_ H1], H2 as [_ H2]. rewrite H1 in H2. discriminate.
  - intros x ys. unfold defaultSelection.
    destruct (ColumnTypes.categoricalColumns data) as [|c cs] eqn:C;
      [discriminate|].
    destruct (ColumnTypes.numericColumns data) as [|n ns] eqn:N;
      [discriminate|].
    intros H. injection H as <- <-.
    assert (In c (ColumnTypes.categoricalColumns data)) as Hc
      by (rewrite C; now left).
    assert (In n (ColumnTypes.numericColumns data)) as Hn
      by (rewrite N; now left).
    unfold ColumnTypes.numericColumns, ColumnTypes.categoricalColumns in Hc, Hn.
    apply filter_In in Hc, Hn. destruct Hc as [Hc1 Hc2], Hn as [Hn1 Hn2].
    apply negb_true_iff in Hc2.
    split; [assumption|]. split; [exact Hc2|].
    exists n. repeat split; try assumption.
    intros ->. change (AnalysisPanel.isNumericColumn data n = true) in Hn2.
    change (AnalysisPanel.isNumericColumn data n = false) in Hc2. congruence.
Qed.

End Selection.

(** ** Rows without a group, and the size of the chart *)

Section ChartRows.
Import JS ChartViewer.







(** The guard on the empty dataset is redundant: the loops leave an empty
    object. *)
Lemma chartData_unfold (data : list Row) (chartType xAxisField : string)
  (yAxisFields : list string) :
  chartData data chartType xAxisField yAxisFields =
  if String.eqb xAxisField "" || Nat.eqb (List.length yAxisFields) 0 then []
  else if String.eqb chartType "bar" || String.eqb chartType "line" then
    Obj.values
      (fold_left
         (group_step (xKey xAxisField)
            (fun k => new_group xAxisField k yAxisFields)
            (accumulate yAxisFields)) data [])
  else if String.eqb chartType "pie" then
    match yAxisFields with
    | yField :: _ =>
        Obj.values
          (fold_left
             (group_step (xKey xAxisField)
                (fun k => [("name", VString k); ("value", VNumber 0%float)])
                (fun item g =>
                   Obj.set g "value"
                     (add (prop g "value") (VNumber (yTerm item yField)))))
             data [])
    | [] => []
    end
  else [].
Proof.
  unfold chartData. rewrite <- orb_assoc.
  destruct (String.eqb xAxisField "" || Nat.eqb (List.length yAxisFields) 0);
    [rewrite orb_true_r; reflexivity|].
  rewrite orb_false_r.
  destruct data as [|item data]; [|reflexivity]. simpl.
  destruct (String.eqb chartType "bar" || String.eqb chartType "line");
    [reflexivity|].
  destruct (String.eqb chartType "pie"); [|reflexivity].
  destruct yAxisFields; reflexivity.
Qed.


(** The pie chart uses the first y field only: further y fields do not
    change it.  It has one slice per x key, named by the key, whose value is
    the sum of the first y field over the rows of the key. *)
Theorem pie_uses_first_y_field (data : list Row) (xAxisField yField : string)
  (rest : list string) :
  xAxisField <> "" ->
  chartData data "pie" xAxisField (yField :: rest) =
    chartData data "pie" xAxisField [yField] /\
  chartData data "pie" xAxisField (yField :: rest) =
    map (fun k =>
           [("name", VString k);
            ("value", VNumber (group_sum xAxisField data k yField))])
        (own_key_order (group_keys (xKey xAxisField) data)).
Proof.
  intros X. split.
  - rewrite !chartData_unfold. reflexivity.
  - apply chartData_pie. assumption.
Qed.

Lemma pie_uses_first_y_field_witness :
  chartData scenario "pie" "b" ["a"; "b"] =
  [ [("name", VString "x"); ("value", VNumber 4%float)];
    [("name", VString "y"); ("value", VNumber 2%float)] ].
Proof.
  refine (eq_trans (proj2 (pie_uses_first_y_field scenario "b" "a" ["b"] _)) _).
  - discriminate.
  - vm_compute. reflexivity.
Defined.

End ChartRows.

(** ** Pages of the table *)

Section Pages.
Import DataViewer.
Context {A : Type}.

Lemma slice_forward (l : list A) (a b : nat) :
  Arr.slice l (Z.of_nat a) (Z.of_nat b) = firstn (b - a) (skipn a l).
Proof.
  unfold Arr.slice. cbv zeta.
  destruct (Z.of_nat a <? 0)%Z eqn:Ea; [apply Z.ltb_lt in Ea; lia|].
  destruct (Z.of_nat b <? 0)%Z eqn:Eb; [apply Z.ltb_lt in Eb; lia|].
  set (len := List.length l).
  destruct (Nat.le_gt_cases len a) as [H|H].
  - rewrite (Z.min_r (Z.of_nat a)) by lia. rewrite Nat2Z.id.
    rewrite !skipn_all2 by (fold len; lia). now rewrite !firstn_nil.
  - rewrite (Z.min_l (Z.of_nat a)) by lia. rewrite Nat2Z.id.
    destruct (Nat.le_gt_cases len b) as [H'|H'].
    + rewrite (Z.min_r (Z.of_nat b)) by lia.
      replace (Z.to_nat (Z.of_nat len - Z.of_nat a)) with (len - a) by lia.
      rewrite !firstn_all2; [reflexivity| |];
        rewrite length_skipn; fold len; lia.
    + rewrite (Z.min_l (Z.of_nat b)) by lia. f_equal. lia.
Qed.

Lemma page_rows (l : list A) (page rowsPerPage : nat) :
  paginatedData l (Z.of_nat (S page)) rowsPerPage =
  firstn rowsPerPage (skipn (page * rowsPerPage) l).
Proof.
  unfold paginatedData.
  replace ((Z.of_nat (S page) - 1) * Z.of_nat rowsPerPage)%Z
    with (Z.of_nat (page * rowsPerPage)) by lia.
  replace (Z.of_nat (S page) * Z.of_nat rowsPerPage)%Z
    with (Z.of_nat (S page * rowsPerPage)) by lia.
  rewrite slice_forward. f_equal. simpl. lia.
Qed.

Lemma firstn_plus (l : list A) (n m : nat) :
  firstn (n + m) l = firstn n l ++ firstn m (skipn n l).
Proof.
  revert l. induction n as [|n IH]; intros l; simpl; [reflexivity|].
  destruct l as [|x l]; simpl; [now rewrite firstn_nil|].
  now rewrite IH.
Qed.

Lemma pages_concat (l : list A) (rowsPerPage pages : nat) :
  List.concat (map (fun page => paginatedData l (Z.of_nat (S page)) rowsPerPage)
              (seq 0 pages)) =
  firstn (pages * rowsPerPage) l.
Proof.
  induction pages as [|pages IH]; [reflexivity|].
  rewrite seq_S, map_app, concat_app, IH. simpl (0 + pages).
  cbn [map List.concat]. rewrite app_nil_r, page_rows.
  rewrite <- firstn_plus. f_equal. simpl. lia.
Qed.

Lemma pages_cover (n rowsPerPage : nat) :
  0 < rowsPerPage ->
  let pages := (n + rowsPerPage - 1) / rowsPerPage in
  n <= pages * rowsPerPage /\ (0 < n -> (pages - 1) * rowsPerPage < n).
Proof.
  intros R pages.
  pose proof (Nat.div_mod (n + rowsPerPage - 1) rowsPerPage ltac:(lia)) as D.
  pose proof (Nat.mod_upper_bound (n + rowsPerPage - 1) rowsPerPage ltac:(lia))
    as M.
  fold pages in D.
  split; [nia|]. intros N.
  destruct pages as [|p]; [nia|]. simpl. rewrite Nat.sub_0_r. nia.
Qed.

(** The pages split the rows: with a positive page size, the pages 1 to
    [totalPages] put one after the other give back the rows, no page has more
    than [rowsPerPage] rows and none of them is empty.  Without rows
    [totalPages] is 0. *)
Theorem pages_partition_rows (filteredData : list A) (rowsPerPage : nat) :
  0 < rowsPerPage ->
  let total := Z.to_nat (totalPages (List.length filteredData) rowsPerPage) in
  List.concat (map (fun page =>
                 paginatedData filteredData (Z.of_nat (S page)) rowsPerPage)
              (seq 0 total)) = filteredData /\
  (forall page, page < total ->
     let rows := paginatedData filteredData (Z.of_nat (S page)) rowsPerPage in
     1 <= List.length rows <= rowsPerPage) /\
  (total = 0 <-> filteredData = []).
Proof.
  intros R total.
  assert (total = (List.length filteredData + rowsPerPage - 1) / rowsPerPage)
    as T by (unfold total, totalPages; apply Nat2Z.id).
  destruct (pages_cover (List.length filteredData) rowsPerPage R) as [C1 C2].
  rewrite <- T in C1, C2. cbv zeta in C1, C2.
  split; [|split].
  - rewrite pages_concat. apply firstn_all2. exact C1.
  - intros page Hp rows. unfold rows. rewrite page_rows.
    rewrite length_firstn, length_skipn.
    assert (0 < List.length filteredData) as N.
    { destruct (List.length filteredData) as [|n] eqn:L; [|lia].
      rewrite T in Hp. simpl in Hp.
      rewrite Nat.div_small in Hp by lia. lia. }
    specialize (C2 N).
    assert (page * rowsPerPage <= (total - 1) * rowsPerPage)
      by (apply Nat.mul_le_mono_r; lia).
    lia.
  - split.
    + intros Z. destruct filteredData; [reflexivity|].
      simpl in C1. rewrite Z in C1. simpl in C1. lia.
    + intros ->. rewrite T. simpl.
      replace (rowsPerPage - 1) with (rowsPerPage - 1) by lia.
      apply Nat.div_small. lia.
Qed.

End Pages.

Lemma pages_partition_rows_witness :
  List.concat (map (fun page => DataViewer.paginatedData [1; 2; 3; 4; 5]
                             (Z.of_nat (S page)) 2)
              (seq 0 (Z.to_nat (DataViewer.totalPages 5 2))))
  = [1; 2; 3; 4; 5].
Proof.
  exact (proj1 (pages_partition_rows [1; 2; 3; 4; 5] 2 ltac:(lia))).
Defined.

Section Navigation.
Import DataViewer.

(** The page buttons keep the current page between 1 and [totalPages] once
    there is a page.  Without rows [totalPages] is 0, and Next and Last then
    move the current page from 1 to 0, a page without rows. *)
Theorem page_buttons_stay_in_range (currentPage total : Z) :
  (1 <= total -> 1 <= currentPage <= total ->
   1 <= firstPage <= total /\
   1 <= prevPage currentPage <= total /\
   1 <= nextPage currentPage total <= total /\
   1 <= lastPage total <= total)%Z /\
  (total = 0%Z ->
   nextPage 1 total = 0%Z /\ lastPage total = 0%Z /\
   forall (A : Type) (rows : list A) (rowsPerPage : nat),
     paginatedData rows 0 rowsPerPage = []).
Proof.
  unfold firstPage, prevPage, nextPage, lastPage. split.
  - intros T P. lia.
  - intros ->. split; [reflexivity|]. split; [reflexivity|].
    intros A rows rowsPerPage. unfold paginatedData, Arr.slice.
    replace (0 * Z.of_nat rowsPerPage)%Z with 0%Z by lia.
    change (0 <? 0)%Z with false. cbv iota.
    rewrite (Z.min_l 0) by lia.
    destruct ((0 - 1) * Z.of_nat rowsPerPage <? 0)%Z eqn:E;
      [apply Z.ltb_lt in E|apply Z.ltb_ge in E];
      match goal with |- firstn (Z.to_nat ?n) _ = _ =>
        replace (Z.to_nat n) with 0 by lia end; reflexivity.
Qed.

(** [handleColumnSelectionChange] switches the membership of the column
    and of no other, and it keeps the selection free of repetitions. *)
Theorem column_selection_toggles (selectedColumns : list string)
  (column : string) :
  NoDup selectedColumns ->
  NoDup (handleColumnSelectionChange selectedColumns column) /\
  (In column (handleColumnSelectionChange selectedColumns column)
   <-> ~ In column selectedColumns) /\
  (forall c, c <> column ->
     (In c (handleColumnSelectionChange selectedColumns column)
      <-> In c selectedColumns)).
Proof.
  intros ND. unfold handleColumnSelectionChange.
  destruct (existsb (String.eqb column) selectedColumns) eqn:E.
  - apply mem_In in E.
    assert (forall c, In c (filter (fun col => negb (String.eqb col column))
                                   selectedColumns)
                      <-> In c selectedColumns /\ c <> column) as F.
    { intros c. rewrite filter_In, negb_true_iff, String.eqb_neq.
      reflexivity. }
    split; [now apply NoDup_filter|]. split.
    + rewrite F. tauto.
    + intros c Nc. rewrite F. tauto.
  - assert (~ In column selectedColumns) as N
      by (intros C; apply mem_In in C; unfold mem in C; congruence).
    split; [|split].
    + apply NoDup_app; [assumption|repeat constructor; simpl; tauto|].
      intros f Hf [<-|[]]. contradiction.
    + rewrite in_app_iff. simpl. tauto.
    + intros c Nc. rewrite in_app_iff. simpl.
      split; [intros [H|[H|[]]]; [assumption|congruence]|tauto].
Qed.

Lemma column_selection_toggles_witness :
  NoDup ["a"; "b"] /\
  handleColumnSelectionChange ["a"; "b"] "c" = ["a"; "b"; "c"] /\
  NoDup (handleColumnSelectionChange ["a"; "b"] "c").
Proof.
  assert (NoDup ["a"; "b"]) as ND.
  { constructor; [simpl; intros [C|[]]; discriminate|].
    constructor; [simpl; tauto|constructor]. }
  split; [assumption|]. split; [reflexivity|].
  exact (proj1 (column_selection_toggles ["a"; "b"] "c" ND)).
Defined.

End Navigation.

(** ** Reading the exported CSV back *)


Section CsvRoundTrip.
Import JS DataViewer Reference.Csv.

Lemma append_assoc (a b c : string) :
  (a ++ (b ++ c))%string = ((a ++ b) ++ c)%string.
Proof. induction a; simpl; [reflexivity|now f_equal]. Qed.

Lemma append_empty (s : string) : (s ++ "")%string = s.
Proof. induction s; simpl; [reflexivity|now f_equal]. Qed.

Lemma unquote_double_quotes (s : string) :
  unquote (double_quotes s ++ String quote EmptyString) = Some s.
Proof.
  induction s as [|a s IH]; simpl.
  - reflexivity.
  - destruct (Ascii.eqb a quote) eqn:E.
    + apply Ascii.eqb_eq in E. subst a. simpl. rewrite IH. reflexivity.
    + simpl. rewrite E, IH. reflexivity.
Qed.

Lemma includes_false_head (a : ascii) (s : string) (c : ascii) :
  includes (String a s) c = false -> Ascii.eqb a c = false /\ includes s c = false.
Proof. simpl. intros H. now apply orb_false_iff in H. Qed.

Lemma csvField_cases (v : Value) :
  (csvField v = cellText v /\
   includes (cellText v) comma = false /\
   includes (cellText v) newline = false /\
   includes (cellText v) quote = false) \/
  csvField v =
    String quote (double_quotes (cellText v) ++ String quote EmptyString).
Proof.
  unfold csvField. fold (cellText v).
  destruct (includes (cellText v) comma) eqn:C; [now right|].
  destruct (includes (cellText v) newline) eqn:N; [now right|].
  destruct (includes (cellText v) quote) eqn:Q; [now right|].
  left. repeat split; assumption.
Qed.

Lemma prepend_append (s t : string) (l : list string) :
  prepend s (prepend t l) = prepend (s ++ t)%string l.
Proof. destruct l; simpl; [reflexivity|]. now rewrite append_assoc. Qed.

(** Scanning text without quotes and separators adds it to the current
    field. *)
Lemma split_plain (sep : ascii) (s rest : string) (quoted : bool) :
  includes s quote = false ->
  (quoted = false -> includes s sep = false) ->
  split sep (s ++ rest) quoted = prepend s (split sep rest quoted).
Proof.
  induction s as [|a s IH]; intros Q C; cbn [append split].
  - destruct (split sep rest quoted); reflexivity.
  - apply includes_false_head in Q. destruct Q as [Qa Qs]. rewrite Qa.
    assert (Ascii.eqb a sep && negb quoted = false) as ->.
    { destruct quoted; [apply andb_false_r|].
      specialize (C eq_refl). apply includes_false_head in C.
      destruct C as [-> _]. reflexivity. }
    rewrite IH; [|assumption|].
    + destruct (split sep rest quoted); reflexivity.
    + intros E. specialize (C E). apply includes_false_head in C. tauto.
Qed.

(** Scanning the body of a quoted field, then its closing quote. *)
Lemma split_quoted_body (sep : ascii) (s rest : string) :
  split sep (double_quotes s ++ String quote rest) true =
  prepend (double_quotes s ++ String quote EmptyString)%string
          (split sep rest false).
Proof.
  induction s as [|a s IH]; cbn [double_quotes append split].
  - rewrite Ascii.eqb_refl. cbn [negb].
    destruct (split sep rest false); reflexivity.
  - destruct (Ascii.eqb a quote) eqn:E.
    + cbn [append split]. rewrite !Ascii.eqb_refl. cbn [negb].
      rewrite IH.
      destruct (split sep rest false); reflexivity.
    + cbn [append split]. rewrite E, andb_false_r, IH.
      destruct (split sep rest false); reflexivity.
Qed.

(** A written cell is scanned as one piece, whether fields or records are
    looked for. *)
Lemma split_field (sep : ascii) (v : Value) (rest : string) :
  sep = comma \/ sep = newline ->
  split sep (csvField v ++ rest) false
  = prepend (csvField v) (split sep rest false).
Proof.
  intros S.
  destruct (csvField_cases v) as [(E & C & N & Q)|E]; rewrite E.
  - apply split_plain; [assumption|intros _].
    destruct S as [-> | ->]; assumption.
  - cbn [append split]. rewrite Ascii.eqb_refl. cbn [negb].
    rewrite <- append_assoc. cbn [append].
    rewrite split_quoted_body.
    destruct (split sep rest false); reflexivity.
Qed.

Lemma fields_join (vs : list Value) :
  vs <> [] ->
  fields (Arr.join (String comma EmptyString) (map csvField vs))
  = map csvField vs.
Proof.
  unfold fields.
  induction vs as [|v vs IH]; [congruence|]. intros _.
  destruct vs as [|w vs].
  - simpl. rewrite <- (append_empty (csvField v)) at 1.
    rewrite split_field by now left. simpl. now rewrite append_empty.
  - change (Arr.join (String comma EmptyString) (map csvField (v :: w :: vs)))
      with (csvField v ++ String comma EmptyString ++
            Arr.join (String comma EmptyString) (map csvField (w :: vs)))%string.
    rewrite split_field by now left.
    change (String comma EmptyString ++ ?x)%string with (String comma x).
    cbn [split append].
    assert (Ascii.eqb comma quote = false) as -> by reflexivity.
    rewrite Ascii.eqb_refl. cbn [negb andb].
    rewrite IH by discriminate. cbn [map prepend]. now rewrite append_empty.
Qed.

(** A written row is scanned as one piece when records are looked for. *)
Lemma split_row (vs : list Value) (rest : string) :
  split newline
        (Arr.join (String comma EmptyString) (map csvField vs) ++ rest) false
  = prepend (Arr.join (String comma EmptyString) (map csvField vs))
            (split newline rest false).
Proof.
  induction vs as [|v vs IH].
  - simpl. destruct (split newline rest false); reflexivity.
  - destruct vs as [|w vs].
    + simpl. apply split_field. now right.
    + change (Arr.join (String comma EmptyString) (map csvField (v :: w :: vs)))
        with (csvField v ++ String comma
                (Arr.join (String comma EmptyString)
                   (map csvField (w :: vs))))%string.
      rewrite <- append_assoc. rewrite split_field by now right.
      cbn [append split].
      assert (Ascii.eqb comma quote = false) as -> by reflexivity.
      assert (Ascii.eqb comma newline = false) as -> by reflexivity.
      cbn [andb]. rewrite IH.
      destruct (split newline rest false); [reflexivity|].
      cbn [prepend]. rewrite <- append_assoc. reflexivity.
Qed.

Lemma csvRow_values (selectedColumns : list string) (row : Row) :
  csvRow selectedColumns row
  = Arr.join (String comma EmptyString)
      (map csvField (map (fun column => prop row column) selectedColumns)).
Proof. unfold csvRow. now rewrite map_map. Qed.

(** A cell written by [exportCSV] reads back as the text of the cell, and a
    row of the export splits back into its cells, whatever commas, quotes and
    newlines the cells contain.  ([undefined] is written as the empty
    text.) *)
Theorem csv_row_reads_back (selectedColumns : list string) (row : Row) :
  selectedColumns <> [] ->
  (forall v, decodeField (csvField v) = Some (cellText v)) /\
  map decodeField (fields (csvRow selectedColumns row)) =
  map (fun column => Some (cellText (prop row column))) selectedColumns.
Proof.
  intros NE.
  assert (forall v, decodeField (csvField v) = Some (cellText v)) as F.
  { intros v. destruct (csvField_cases v) as [(E & _ & _ & Q)|E]; rewrite E.
    - destruct (cellText v) as [|a s]; [reflexivity|].
      apply includes_false_head in Q. destruct Q as [Qa _].
      unfold decodeField. now rewrite Qa.
    - unfold decodeField. rewrite Ascii.eqb_refl.
      apply unquote_double_quotes. }
  split; [exact F|].
  rewrite csvRow_values, fields_join
    by (destruct selectedColumns; [congruence|discriminate]).
  rewrite !map_map. apply map_ext. intros column. apply F.
Qed.

Lemma csv_row_reads_back_witness :
  csvRow ["a"; "b"] [("a", VString "x,y"); ("b", VNumber 2%float)]
    = String quote ("x,y" ++ String quote ",2") /\
  map decodeField
      (fields
         (csvRow ["a"; "b"] [("a", VString "x,y"); ("b", VNumber 2%float)]))
    = [Some "x,y"; Some "2"].
Proof.
  split; [vm_compute; reflexivity|].
  refine (eq_trans
            (proj2 (csv_row_reads_back ["a"; "b"]
                      [("a", VString "x,y"); ("b", VNumber 2%float)] _)) _).
  - discriminate.
  - vm_compute. reflexivity.
Defined.

Lemma includes_append (s t : string) (c : ascii) :
  includes (s ++ t)%string c = includes s c || includes t c.
Proof.
  induction s as [|a s IH]; simpl; [reflexivity|].
  now rewrite IH, orb_assoc.
Qed.

Lemma includes_join (sep c : ascii) (l : list string) :
  Ascii.eqb sep c = false ->
  (forall x, In x l -> includes x c = false) ->
  includes (Arr.join (String sep EmptyString) l) c = false.
Proof.
  intros S. induction l as [|x l IH]; intros H; [reflexivity|].
  destruct l as [|y l].
  - simpl. apply H. now left.
  - change (Arr.join (String sep EmptyString) (x :: y :: l))
      with (x ++ String sep (Arr.join (String sep EmptyString) (y :: l)))%string.
    rewrite includes_append. cbn [includes]. rewrite S.
    rewrite (H x) by now left.
    rewrite IH; [reflexivity|]. intros z Hz. apply H. now right.
Qed.

(** Pieces that a scan for records takes whole, joined by newlines, are
    the records of the text. *)
Lemma records_join (pieces : list string) :
  pieces <> [] ->
  (forall p, In p pieces ->
     forall rest, split newline (p ++ rest) false
                  = prepend p (split newline rest false)) ->
  records (Arr.join (String newline EmptyString) pieces) = pieces.
Proof.
  unfold records.
  induction pieces as [|p pieces IH]; [congruence|]. intros _ H.
  destruct pieces as [|q pieces].
  - simpl. rewrite <- (append_empty p) at 1.
    rewrite (H p) by now left. simpl. now rewrite append_empty.
  - change (Arr.join (String newline EmptyString) (p :: q :: pieces))
      with (p ++ String newline
              (Arr.join (String newline EmptyString) (q :: pieces)))%string.
    rewrite (H p) by now left.
    cbn [split].
    assert (Ascii.eqb newline quote = false) as -> by reflexivity.
    rewrite Ascii.eqb_refl. cbn [negb andb].
    rewrite IH; [|discriminate|].
    + cbn [prepend]. now rewrite append_empty.
    + intros r Hr. apply H. now right.
Qed.

(** The exported text splits into the header and one record per row of the
    table, in order, also when cells contain newlines, as long as no column
    name contains a quote or a newline (the header is written without
    quoting). *)
Theorem csv_export_has_one_record_per_row (selectedColumns : list string)
  (filteredData : list Row) :
  (forall column, In column selectedColumns ->
     includes column quote = false /\ includes column newline = false) ->
  records (csvContent selectedColumns filteredData)
  = Arr.join (String comma EmptyString) selectedColumns
    :: map (csvRow selectedColumns) filteredData.
Proof.
  intros H. unfold csvContent. apply records_join; [discriminate|].
  intros p [<- | Hp] rest.
  - apply split_plain.
    + apply includes_join; [reflexivity|]. intros x Hx. now apply H.
    + intros _. apply includes_join; [reflexivity|].
      intros x Hx. now apply H.
  - apply in_map_iff in Hp. destruct Hp as (row & <- & _).
    rewrite csvRow_values. apply split_row.
Qed.

Lemma csv_export_has_one_record_per_row_witness :
  records
    (csvContent ["a"; "b"]
       [[("a", VString (String newline "x")); ("b", VNumber 2%float)];
        [("a", VString "y"); ("b", VNumber 3%float)]])
  = ["a,b";
     String quote (String newline ("x" ++ String quote ",2"));
     "y,3"].
Proof.
  refine (eq_trans
            (csv_export_has_one_record_per_row ["a"; "b"]
               [[("a", VString (String newline "x")); ("b", VNumber 2%float)];
                [("a", VString "y"); ("b", VNumber 3%float)]] _) _).
  - intros column [<- | [<- | []]]; split; reflexivity.
  - vm_compute. reflexivity.
Defined.

End CsvRoundTrip.

(** ** The summary of the data set *)

Section Summary.
Import JS AnalysisPanel.

(** The summary exists exactly for a non-empty data set; its column counts
    add up, and they are the numbers of columns the chart offers as numeric
    and as categorical. *)
Theorem summary_counts (data : list Row) :
  match dataSummary data with
  | None => data = []
  | Some s =>
      DataSummary.rowCount s = List.length data /\
      1 <= DataSummary.rowCount s /\
      DataSummary.columnCount s = List.length (columns data) /\
      DataSummary.numericColumnCount s
      + DataSummary.categoricalColumnCount s = DataSummary.columnCount s /\
      DataSummary.numericColumnCount s
      = List.length (ChartViewer.ColumnTypes.numericColumns data) /\
      DataSummary.categoricalColumnCount s
      = List.length (ChartViewer.ColumnTypes.categoricalColumns data)
  end.
Proof.
  unfold dataSummary. destruct data as [|row data]; [reflexivity|].
  cbn [List.length Nat.eqb DataSummary.rowCount DataSummary.columnCount
       DataSummary.numericColumnCount DataSummary.categoricalColumnCount].
  pose proof (filter_split_length (isNumericColumn (row :: data))
                (columns (row :: data))) as S.
  fold (numericColumns (row :: data)) in S.
  change (filter (fun x => negb (isNumericColumn (row :: data) x))
            (columns (row :: data)))
    with (ChartViewer.ColumnTypes.categoricalColumns (row :: data)) in S.
  change (ChartViewer.ColumnTypes.numericColumns (row :: data))
    with (numericColumns (row :: data)).
  revert S.
  generalize (List.length (numericColumns (row :: data)))
             (List.length
                (ChartViewer.ColumnTypes.categoricalColumns (row :: data)))
             (List.length (columns (row :: data)))
             (List.length data).
  intros a b c d S. repeat split; lia.
Qed.

End Summary.
